(** * VehicleTrack Cloud: the permission-gated real-time relay

    A shallow embedding of [src/backend/server.js]: the S3-backed document
    store ([putJSON], [getJSON]), the key layout ([paths]), the handshake gate
    ([verifyJwt], [decodeFakeJwt], the [ns.use] middleware), the permission
    state machine ([updatePermission]), the three socket handlers and the
    history endpoint, followed by the properties of section 8 of the
    specification.  After them come the parts the specification leaves
    out -- the two permission endpoints, the registry of the namespace, and
    the state updates of the demo client ([AuthContext.login], [useSocket],
    [UserDashboard], [DeviceDashboard]) -- with further properties of the
    server and of the client against it.

    Conventions of the embedding.
    - An identifier or role field of a JavaScript payload is a [jsval]: a
      string, [null], or [undefined] (the field is absent).
    - A stored JSON object is a [Doc]: a record of the fields this server
      reads or writes, each of them optional.
    - Every S3 call may fail: the store carries a fault oracle [up].
    - The handlers run in the monad [M]: the world (bucket and the events
      emitted so far) is threaded through, and a JavaScript [throw] is the
      left summand of the result. *)

From stdpp Require Import gmap strings list fin_maps sorting.
From Stdlib Require Import ZArith QArith String Ascii DecimalString DecimalPos.

Local Open Scope string_scope.
Local Open Scope Z_scope.

(* ------------------------------------------------------------------ *)
(** ** JavaScript values of identifier fields *)

Inductive jsval : Type :=
  | JUndefined
  | JNull
  | JStr (s : string).

#[global] Instance jsval_eq_dec : EqDecision jsval.
Proof. solve_decision. Defined.

(** [!v]: of these values only a non-empty string is truthy. *)
Definition truthy (v : jsval) : bool :=
  match v with
  | JStr s => negb (String.eqb s "")
  | _ => false
  end.

(** The coercion of a template literal, [`${v}`]. *)
Definition to_str (v : jsval) : string :=
  match v with
  | JUndefined => "undefined"
  | JNull => "null"
  | JStr s => s
  end.

(** [JSON.parse(JSON.stringify(a))] on an array cell: [undefined] is
    written as [null]. *)
Definition json_cell (v : jsval) : jsval :=
  match v with
  | JUndefined => JNull
  | other => other
  end.

(** [a.includes(x)] (SameValueZero, which on these values is equality). *)
Definition includes (a : list jsval) (x : jsval) : bool := bool_decide (x ∈ a).

(** [if (!a.includes(x)) a.push(x)]. *)
Definition push_if_absent (a : list jsval) (x : jsval) : list jsval :=
  if includes a x then a else a ++ [x].

(** [a.filter((y) => y !== x)]. *)
Definition filter_ne (a : list jsval) (x : jsval) : list jsval :=
  filter (λ y, y ≠ x) a.

(* ------------------------------------------------------------------ *)
(** ** Decimal text and the UTC calendar *)

(** [String(n)] for an integer. *)
Definition dec (n : Z) : string := NilZero.string_of_int (Z.to_int n).

(** [s.padStart(2, "0")]. *)
Definition padStart2 (s : string) : string :=
  match s with
  | "" => "00"
  | String c "" => String "0" (String c "")
  | _ => s
  end.

(** The proleptic Gregorian date of a day number counted from 1970-01-01,
    as [Date.prototype.getUTCFullYear], [getUTCMonth() + 1] and
    [getUTCDate] report it for [new Date(ts)]. *)
Definition ms_per_day : Z := 86400000.

Definition civil (ts : Z) : Z * Z * Z :=
  let z := ts / ms_per_day + 719468 in
  let era := z / 146097 in
  let doe := z - era * 146097 in
  let yoe := (doe - doe / 1460 + doe / 36524 - doe / 146096) / 365 in
  let doy := doe - (365 * yoe + yoe / 4 - yoe / 100) in
  let mp := (5 * doy + 2) / 153 in
  let d := doy - (153 * mp + 2) / 5 + 1 in
  let m := if mp <? 10 then mp + 3 else mp - 9 in
  let y := yoe + era * 400 + (if m <=? 2 then 1 else 0) in
  (y, m, d).

(* ------------------------------------------------------------------ *)
(** ** Storage key layout *)

Module paths.

Definition current (v : jsval) : string :=
  "vehicles/" ++ to_str v ++ "/current.json".

Definition history (v : jsval) (ts : Z) : string :=
  let '(y, m, d) := civil ts in
  "vehicles/" ++ to_str v ++ "/history/" ++ dec y ++ "/" ++
  padStart2 (dec m) ++ "/" ++ padStart2 (dec d) ++ "/" ++ dec ts ++ ".json".

Definition userPerm (u : jsval) : string :=
  "permissions/user/" ++ to_str u ++ ".json".

Definition vehPerm (v : jsval) : string :=
  "permissions/vehicle/" ++ to_str v ++ ".json".

End paths.

(* ------------------------------------------------------------------ *)
(** ** Documents and the bucket *)

(** A JSON object as this server sees it.  A permission document carries
    [pending] and [accepted]; a position report carries [vehicleId], [lat],
    [lng], [speed] and [ts]; an event payload carries [vehicleId] and
    [userId].  [None] (for the identifiers: [JUndefined]) is an absent
    field. *)
Record Doc : Type := mkDoc {
  pending : option (list jsval);
  accepted : option (list jsval);
  vehicleId : jsval;
  userId : jsval;
  lat : option Q;
  lng : option Q;
  speed : option Q;
  ts : option Z
}.

(** [{}]. *)
Definition empty_obj : Doc :=
  mkDoc None None JUndefined JUndefined None None None None.

(** [{ pending: [], accepted: [] }]. *)
Definition empty_perm : Doc :=
  mkDoc (Some []) (Some []) JUndefined JUndefined None None None None.

Definition set_pending (d : Doc) (l : list jsval) : Doc :=
  mkDoc (Some l) (accepted d) (vehicleId d) (userId d)
        (lat d) (lng d) (speed d) (ts d).

Definition set_accepted (d : Doc) (l : list jsval) : Doc :=
  mkDoc (pending d) (Some l) (vehicleId d) (userId d)
        (lat d) (lng d) (speed d) (ts d).

(** [JSON.parse(JSON.stringify(d))]: what a later read of a written
    document yields. *)
Definition json_roundtrip (d : Doc) : Doc :=
  mkDoc (fmap (M := list) json_cell <$> pending d)
        (fmap (M := list) json_cell <$> accepted d)
        (vehicleId d) (userId d) (lat d) (lng d) (speed d) (ts d).

Inductive s3op : Type :=
  | GetObject (key : string)
  | PutObject (key : string)
  | ListObjectsV2 (prefix : string).

#[global] Instance s3op_eq_dec : EqDecision s3op.
Proof. solve_decision. Defined.

(** The bucket: its objects, and which calls currently succeed. *)
Record S3 : Type := mkS3 {
  objects : gmap string Doc;
  up : s3op → bool
}.

(** No call fails. *)
Definition healthy (s : S3) : Prop := ∀ op, up s op = true.

(* ------------------------------------------------------------------ *)
(** ** Events pushed to rooms, and the handler monad *)

(** [ns.to(room).emit(event, body)]. *)
Record Emit : Type := mkEmit {
  room : string;
  event : string;
  body : Doc
}.

(** What is thrown: [new Error(message)], a [TypeError] of the engine, a
    failed S3 call; [OutOfFuel] belongs to the model of the page loop and
    is never produced (lemma [history_keys_terminates]). *)
Inductive exn : Type :=
  | Error (message : string)
  | TypeError
  | S3Error
  | OutOfFuel.

(** The world a handler runs in: the bucket and the events emitted so far. *)
Record World : Type := mkWorld {
  s3 : S3;
  sent : list Emit
}.

Definition M (A : Type) : Type := World → World * (exn + A).

Definition ret {A} (a : A) : M A := λ w, (w, inr a).
Definition throw {A} (e : exn) : M A := λ w, (w, inl e).
Definition bind {A B} (c : M A) (k : A → M B) : M B :=
  λ w, match c w with
       | (w', inr a) => k a w'
       | (w', inl e) => (w', inl e)
       end.

Notation "'let!' x ':=' c 'in' k" := (bind c (λ x, k))
  (at level 10, x pattern, c at level 100, k at level 200).

(* ------------------------------------------------------------------ *)
(** ** DocumentStore: [putJSON] and [getJSON] *)

(** [putJSON(key, data)]: the body written is [JSON.stringify(data)], so a
    later read parses [json_roundtrip data]; a failed call throws. *)
Definition putJSON (key : string) (data : Doc) : M unit := λ w,
  if up (s3 w) (PutObject key)
  then (mkWorld (mkS3 (<[key := json_roundtrip data]> (objects (s3 w)))
                      (up (s3 w)))
                (sent w), inr tt)
  else (w, inl S3Error).

(** [getJSON(key, fallback)]: the [catch] covers a failed call and a
    missing key alike.  (Bodies are stored parsed, so [JSON.parse] itself
    does not fail here.) *)
Definition getJSON (key : string) (fallback : Doc) : M Doc := λ w,
  if up (s3 w) (GetObject key)
  then (w, inr (default fallback (objects (s3 w) !! key)))
  else (w, inr fallback).

(** Reading a field and using it as an array: a [TypeError] when the field
    is [undefined]; also the destructuring of an absent payload. *)
Definition defined {A} (o : option A) : M A :=
  match o with
  | Some a => ret a
  | None => throw TypeError
  end.

(** [ns.to(room).emit(event, body)]. *)
Definition emit (room event : string) (body : Doc) : M unit := λ w,
  (mkWorld (s3 w) (sent w ++ [mkEmit room event body]), inr tt).

(** [for (const x of l) f(x)]. *)
Fixpoint for_of {A} (l : list A) (f : A → M unit) : M unit :=
  match l with
  | [] => ret tt
  | x :: l' => let! _ := f x in for_of l' f
  end.

(* ------------------------------------------------------------------ *)
(** ** PermissionStateMachine: [updatePermission] *)

Definition updatePermission (vehicleId userId : jsval) (status : string)
  : M (Doc * Doc) :=
  let! veh := getJSON (paths.vehPerm vehicleId) empty_perm in
  let! usr := getJSON (paths.userPerm userId) empty_perm in
  let! docs :=
    if String.eqb status "pending" then
      let! vpend := defined (pending veh) in
      let veh := set_pending veh (push_if_absent vpend userId) in
      let! upend := defined (pending usr) in
      let usr := set_pending usr (push_if_absent upend vehicleId) in
      ret (veh, usr)
    else if String.eqb status "accepted" then
      let! vpend := defined (pending veh) in
      let veh := set_pending veh (filter_ne vpend userId) in
      let! upend := defined (pending usr) in
      let usr := set_pending usr (filter_ne upend vehicleId) in
      let! vacc := defined (accepted veh) in
      let veh := set_accepted veh (push_if_absent vacc userId) in
      let! uacc := defined (accepted usr) in
      let usr := set_accepted usr (push_if_absent uacc vehicleId) in
      ret (veh, usr)
    else ret (veh, usr) in
  let veh := fst docs in
  let usr := snd docs in
  let! _ := putJSON (paths.vehPerm vehicleId) veh in
  let! _ := putJSON (paths.userPerm userId) usr in
  ret (veh, usr).

(* ------------------------------------------------------------------ *)
(** ** AuthGate: [verifyJwt], [decodeFakeJwt] and the [ns.use] middleware *)

(** The [role] and [sub] fields of a decoded credential. *)
Record Payload : Type := mkPayload {
  role : jsval;
  sub : jsval
}.

(** [socket.data]: [{ role: "user", userId }] or [{ role: "device", vehicleId }]. *)
Record SocketData : Type := mkSocketData {
  data_role : string;
  data_userId : jsval;
  data_vehicleId : jsval
}.

(** [socket.handshake.auth?.token] and [socket.handshake.query?.token]. *)
Record Handshake : Type := mkHandshake {
  auth_token : jsval;
  query_token : jsval
}.

(** [s.split(".")]. *)
Fixpoint split_dot (s : string) : list string :=
  match s with
  | "" => [""]
  | String c s' =>
      if Ascii.eqb c "."
      then "" :: split_dot s'
      else match split_dot s' with
           | p :: ps => String c p :: ps
           | [] => [String c ""]
           end
  end.

Section AuthGate.

(** [jwt.verify(token, JWT_SECRET)] of the jsonwebtoken package: [inl] when
    it throws; otherwise the payload, [None] standing for a falsy one. *)
Variable jwt_verify : string → exn + option Payload.

(** [JSON.parse(atob(part))]: [inl] when the parse throws; otherwise the
    parsed value, [None] standing for a falsy one ([null], [0], ...).  A
    truthy value that is no object has both fields [undefined]. *)
Variable JSON_parse_atob : string → exn + option Payload.

Definition verifyJwt (token : string) : option Payload :=
  match jwt_verify token with
  | inr payload => payload
  | inl _ => None
  end.

Definition decodeFakeJwt (token : jsval) : option Payload :=
  match token with
  | JStr t =>
      let parts := split_dot t in
      if (List.length parts <? 2)%nat then None
      else match JSON_parse_atob (nth 1 parts "") with
           | inr payload => payload
           | inl _ => None
           end
  | _ => None (* [token.split] throws, and the [catch] returns [null] *)
  end.

(** [socket.handshake.auth?.token || socket.handshake.query?.token]. *)
Definition handshake_token (hs : Handshake) : jsval :=
  if truthy (auth_token hs) then auth_token hs else query_token hs.

(** [let payload = token && verifyJwt(token);
     if (!payload) payload = decodeFakeJwt(token);] *)
Definition credential_payload (token : jsval) : option Payload :=
  let payload :=
    match token with
    | JStr t => if truthy token then verifyJwt t else None
    | _ => None
    end in
  match payload with
  | Some p => Some p
  | None => decodeFakeJwt token
  end.

(** The middleware: [inl] is [next(new Error("Unauthorized"))], [inr] is
    [next()] with [socket.data] bound. *)
Definition auth_middleware (hs : Handshake) : exn + SocketData :=
  match credential_payload (handshake_token hs) with
  | None => inl (Error "Unauthorized")
  | Some p =>
      if negb (truthy (role p)) || negb (truthy (sub p))
      then inl (Error "Unauthorized")
      else if bool_decide (role p = JStr "user")
      then inr (mkSocketData "user" (sub p) JUndefined)
      else inr (mkSocketData "device" JUndefined (sub p))
  end.

End AuthGate.

(* ------------------------------------------------------------------ *)
(** ** Socket handlers *)

(** The argument of [ack]: [{ ok: true, msg? }] or [{ ok: false, error }]. *)
Inductive Ack : Type :=
  | AckOk (msg : option string)
  | AckError (e : exn).

(** [try { ... ack({ ok: true ... }) } catch (e) { ack({ ok: false, error: e.message }) }] *)
Definition try_ack (c : M Ack) (w : World) : World * Ack :=
  match c w with
  | (w', inr a) => (w', a)
  | (w', inl e) => (w', AckError e)
  end.

(** The report a device's [location:update] is turned into. *)
Definition position_report (data : Doc) (now : Z) : Doc :=
  mkDoc None None (vehicleId data) JUndefined
        (lat data) (lng data) (speed data) (Some now).

(** [socket.on("location:update", async (data, ack) => ...)]; [now] is
    [Date.now()]. *)
Definition on_location_update (sd : SocketData) (data : option Doc) (now : Z)
  : World → World * Ack :=
  try_ack (
    let! _ := if negb (String.eqb (data_role sd) "device")
              then throw (Error "Only devices can send") else ret tt in
    let! data := defined data in
    let payload := position_report data now in
    let! _ := putJSON (paths.current (vehicleId data)) payload in
    let! _ := putJSON (paths.history (vehicleId data) now) payload in
    let! vehPerm := getJSON (paths.vehPerm (vehicleId data)) empty_obj in
    let! _ := for_of (default [] (accepted vehPerm))
                (λ uid, emit ("user:" ++ to_str uid) "location:live" payload) in
    ret (AckOk None)).

(** [socket.on("location:request", async (data, ack) => ...)]. *)
Definition on_location_request (sd : SocketData) (data : option Doc) (now : Z)
  : World → World * Ack :=
  try_ack (
    let! _ := if negb (String.eqb (data_role sd) "user")
              then throw (Error "Only users can request") else ret tt in
    let! data := defined data in
    let! _ := if negb (truthy (vehicleId data))
              then throw (Error "vehicleId required") else ret tt in
    let! _ := updatePermission (vehicleId data) (data_userId sd) "pending" in
    let! _ := emit ("vehicle:" ++ to_str (vehicleId data)) "user:locationPermission"
                (mkDoc None None (vehicleId data) (data_userId sd)
                       None None None (Some now)) in
    ret (AckOk (Some "Permission request sent"))).

(** [socket.on("permission:granted", async (data, ack) => ...)]. *)
Definition on_permission_granted (sd : SocketData) (data : option Doc)
  : World → World * Ack :=
  try_ack (
    let! _ := if negb (String.eqb (data_role sd) "device")
              then throw (Error "Only devices can approve") else ret tt in
    let! data := defined data in
    let! _ := updatePermission (vehicleId data) (userId data) "accepted" in
    let! _ := emit ("user:" ++ to_str (userId data)) "permission:granted"
                (mkDoc None None (vehicleId data) (userId data)
                       None None None None) in
    ret (AckOk None)).

(* ------------------------------------------------------------------ *)
(** ** ConnectionRegistry and the life of a connection *)

#[global] Instance jsval_countable : Countable jsval.
Proof.
  refine (inj_countable'
            (λ v, match v with
                  | JUndefined => inl false
                  | JNull => inl true
                  | JStr s => inr s
                  end)
            (λ x, match x with
                  | inl false => JUndefined
                  | inl true => JNull
                  | inr s => JStr s
                  end) _).
  by intros [].
Defined.

(** The namespace: the world, the open sockets with their [socket.data],
    socket.io's rooms, and the two global maps of the server. *)
Record Server : Type := mkServer {
  world : World;
  sockets : gmap string SocketData;
  rooms : gmap string (gset string);
  userSockets : gmap jsval (gset string);
  vehicleSockets : gmap jsval (gset string)
}.

(** [socket.join(room)]. *)
Definition join (room sid : string) (rs : gmap string (gset string))
  : gmap string (gset string) :=
  <[room := {[sid]} ∪ default ∅ (rs !! room)]> rs.

(** [if (!m.has(id)) m.set(id, new Set()); m.get(id).add(sid)]. *)
Definition add_socket (id : jsval) (sid : string) (m : gmap jsval (gset string))
  : gmap jsval (gset string) :=
  <[id := {[sid]} ∪ default ∅ (m !! id)]> m.

(** [m.get(id)?.delete(sid)]. *)
Definition delete_socket (id : jsval) (sid : string) (m : gmap jsval (gset string))
  : gmap jsval (gset string) :=
  match m !! id with
  | Some sids => <[id := sids ∖ {[sid]}]> m
  | None => m
  end.

(** [ns.on("connection", (socket) => ...)], up to the registration of the
    handlers. *)
Definition on_connection (srv : Server) (sid : string) (sd : SocketData) : Server :=
  let socks := <[sid := sd]> (sockets srv) in
  if String.eqb (data_role sd) "user" then
    mkServer (world srv) socks
             (join ("user:" ++ to_str (data_userId sd)) sid (rooms srv))
             (add_socket (data_userId sd) sid (userSockets srv))
             (vehicleSockets srv)
  else if String.eqb (data_role sd) "device" then
    mkServer (world srv) socks
             (join ("vehicle:" ++ to_str (data_vehicleId sd)) sid (rooms srv))
             (userSockets srv)
             (add_socket (data_vehicleId sd) sid (vehicleSockets srv))
  else
    mkServer (world srv) socks (rooms srv) (userSockets srv) (vehicleSockets srv).

(** [socket.on("disconnect", ...)]; socket.io itself takes the socket out
    of its rooms. *)
Definition on_disconnect (srv : Server) (sid : string) (sd : SocketData) : Server :=
  mkServer (world srv)
           (delete sid (sockets srv))
           ((λ sids : gset string, sids ∖ {[sid]}) <$> rooms srv)
           (if String.eqb (data_role sd) "user"
            then delete_socket (data_userId sd) sid (userSockets srv)
            else userSockets srv)
           (if String.eqb (data_role sd) "device"
            then delete_socket (data_vehicleId sd) sid (vehicleSockets srv)
            else vehicleSockets srv).

Definition with_world (srv : Server) (w : World) : Server :=
  mkServer w (sockets srv) (rooms srv) (userSockets srv) (vehicleSockets srv).

(** What reaches the server from a client. *)
Inductive input : Type :=
  | Connect (sid : string) (hs : Handshake)
  | Packet (sid : string) (event : string) (data : option Doc) (now : Z)
  | Disconnect (sid : string).

(** What the client gets back. *)
Inductive reply : Type :=
  | ConnectError (e : exn)
  | Connected
  | Acked (a : Ack)
  | Silent.

(** The sockets an emitted event is delivered to. *)
Definition recipients (srv : Server) (e : Emit) : gset string :=
  default ∅ (rooms srv !! room e).

Section Namespace.

Variable jwt_verify : string → exn + option Payload.
Variable JSON_parse_atob : string → exn + option Payload.

(** One input to the namespace [/track].  A packet is dispatched only to a
    socket that passed the middleware: the handlers are registered in the
    [connection] callback, which a refused handshake never reaches. *)
Definition step (srv : Server) (i : input) : Server * reply :=
  match i with
  | Connect sid hs =>
      match auth_middleware jwt_verify JSON_parse_atob hs with
      | inl e => (srv, ConnectError e)
      | inr sd => (on_connection srv sid sd, Connected)
      end
  | Packet sid ev data now =>
      match sockets srv !! sid with
      | None => (srv, Silent)
      | Some sd =>
          if String.eqb ev "location:update" then
            let r := on_location_update sd data now (world srv) in
            (with_world srv (fst r), Acked (snd r))
          else if String.eqb ev "location:request" then
            let r := on_location_request sd data now (world srv) in
            (with_world srv (fst r), Acked (snd r))
          else if String.eqb ev "permission:granted" then
            let r := on_permission_granted sd data (world srv) in
            (with_world srv (fst r), Acked (snd r))
          else (srv, Silent)
      end
  | Disconnect sid =>
      match sockets srv !! sid with
      | None => (srv, Silent)
      | Some sd => (on_disconnect srv sid sd, Silent)
      end
  end.

(** The inputs of a run, one after the other. *)
Fixpoint run (srv : Server) (inputs : list input) : Server * list reply :=
  match inputs with
  | [] => (srv, [])
  | i :: inputs' =>
      let r := step srv i in
      let r' := run (fst r) inputs' in
      (fst r', snd r :: snd r')
  end.

End Namespace.

(* ------------------------------------------------------------------ *)
(** ** HistoryQuery: [GET /api/history/:vehicleId] *)

Definition is_digit (c : ascii) : bool :=
  let n := nat_of_ascii c in (48 <=? n)%nat && (n <=? 57)%nat.

(** [Number(digits)] for a run of decimal digits, most significant first.
    (JavaScript rounds to a double; the value is exact below 2^53, which
    covers every millisecond timestamp.) *)
Definition Number_digits (ds : list ascii) : Z :=
  fold_left (λ acc c, 10 * acc + (Z.of_nat (nat_of_ascii c) - 48)) ds 0.

(** The longest run of digits a list starts with. *)
Fixpoint take_digits (l : list ascii) : list ascii :=
  match l with
  | c :: l' => if is_digit c then c :: take_digits l' else []
  | [] => []
  end.

(** [l] without the leading [p], when it starts with [p]. *)
Fixpoint strip_prefix (p l : list ascii) : option (list ascii) :=
  match p, l with
  | [], _ => Some l
  | a :: p', b :: l' => if Ascii.eqb a b then strip_prefix p' l' else None
  | _ :: _, [] => None
  end.

(** [key.match(/\/(\d+)\.json$/)] followed by [Number(match[1])]: the key
    must end in [.json], and the run of digits before that suffix must be
    non-empty and preceded by a slash.  The key is read from its end. *)
Definition key_ts (key : string) : option Z :=
  let r := rev (list_ascii_of_string key) in
  match strip_prefix (rev (list_ascii_of_string ".json")) r with
  | Some r' =>
      let ds := take_digits r' in
      match ds, drop (List.length ds) r' with
      | _ :: _, c :: _ =>
          if Ascii.eqb c "/" then Some (Number_digits (rev ds)) else None
      | _, _ => None
      end
  | None => None
  end.

(** [from] and [to] after [req.query.x ? Number(req.query.x) : null]. *)
Inductive bound : Type :=
  | BNull
  | BNaN
  | BNum (n : Z).

(** [!b]. *)
Definition falsy (b : bound) : bool :=
  match b with
  | BNull | BNaN => true
  | BNum n => n =? 0
  end.

(** [ts >= b] and [ts <= b] ([null] compares as 0, [NaN] never). *)
Definition ge_bound (ts : Z) (b : bound) : bool :=
  match b with
  | BNull => 0 <=? ts
  | BNaN => false
  | BNum n => n <=? ts
  end.

Definition le_bound (ts : Z) (b : bound) : bool :=
  match b with
  | BNull => ts <=? 0
  | BNaN => false
  | BNum n => ts <=? n
  end.

(** [(!from || ts >= from) && (!to || ts <= to)]. *)
Definition in_bounds (from to : bound) (ts : Z) : bool :=
  (falsy from || ge_bound ts from) && (falsy to || le_bound ts to).

(** The order in which S3 lists keys (by their bytes). *)
Definition key_le (a b : string) : Prop := String.leb a b = true.

#[global] Instance key_le_dec : RelDecision key_le.
Proof. intros a b. unfold key_le. apply _. Defined.

(** All keys of the bucket under a prefix, in listing order. *)
Definition keys_under (s : S3) (prefix : string) : list string :=
  merge_sort key_le
    (filter (λ k, String.prefix prefix k = true) (elements (dom (objects s)))).

(** The output of one [ListObjectsV2Command]. *)
Record ListOutput : Type := mkListOutput {
  Contents : option (list string);
  IsTruncated : bool;
  NextContinuationToken : nat
}.

(** [s3.send(new ListObjectsV2Command({ Prefix, ContinuationToken,
    MaxKeys }))]: a page of at most [MaxKeys] keys; the continuation token
    is the offset of the next page; [Contents] is absent on an empty page. *)
Definition listObjectsV2 (prefix : string) (token : option nat) (MaxKeys : nat)
  : M ListOutput := λ w,
  if up (s3 w) (ListObjectsV2 prefix) then
    let all := keys_under (s3 w) prefix in
    let off := default 0%nat token in
    let page := take MaxKeys (drop off all) in
    (w, inr (mkListOutput (match page with [] => None | _ => Some page end)
                          (off + MaxKeys <? List.length all)%nat
                          (off + MaxKeys)%nat))
  else (w, inl S3Error).

(** The body of the [for (const obj of out.Contents ?? [])] loop. *)
Definition match_key (from to : bound) (key : string) : option (string * Z) :=
  match key_ts key with
  | Some ts => if in_bounds from to ts then Some (key, ts) else None
  | None => None
  end.

(** The [do { ... } while (token)] loop; [fuel] bounds the number of pages. *)
Fixpoint list_pages (fuel : nat) (prefix : string) (from to : bound)
    (token : option nat) (keys : list (string * Z)) : M (list (string * Z)) :=
  match fuel with
  | O => throw OutOfFuel
  | S fuel' =>
      let! out := listObjectsV2 prefix token 1000 in
      let keys := (keys ++ omap (match_key from to) (default [] (Contents out)))%list in
      let token := if IsTruncated out then Some (NextContinuationToken out) else None in
      match token with
      | Some _ => list_pages fuel' prefix from to token keys
      | None => ret keys
      end
  end.

(** [keys.sort((a, b) => a.ts - b.ts)]: a stable sort, ascending in [ts]. *)
Fixpoint insert_by_ts (x : string * Z) (l : list (string * Z)) : list (string * Z) :=
  match l with
  | [] => [x]
  | y :: l' => if snd x <=? snd y then x :: l else y :: insert_by_ts x l'
  end.

Definition sort_by_ts (l : list (string * Z)) : list (string * Z) :=
  foldr insert_by_ts [] l.

(** [a.slice(-n)]. *)
Definition slice_last {A} (n : nat) (a : list A) : list A :=
  drop (List.length a - n) a.

(** [s3.send(new GetObjectCommand(...))] and [JSON.parse] of its body. *)
Definition getObject (key : string) : M Doc := λ w,
  if up (s3 w) (GetObject key) then
    match objects (s3 w) !! key with
    | Some d => (w, inr d)
    | None => (w, inl S3Error)
    end
  else (w, inl S3Error).

(** [for (const { key } of keys) results.push(...)]. *)
Fixpoint fetch_all (keys : list (string * Z)) : M (list Doc) :=
  match keys with
  | [] => ret []
  | k :: keys' =>
      let! d := getObject (fst k) in
      let! ds := fetch_all keys' in
      ret (d :: ds)
  end.

(** The response: [{ ok: true, count, data }], or status 500 with
    [{ ok: false, error }]. *)
Inductive HistoryResponse : Type :=
  | HistoryOk (count : nat) (data : list Doc)
  | HistoryError (e : exn).

(** [`vehicles/${vehicleId}/history/`]. *)
Definition history_prefix (vehicleId : string) : string :=
  "vehicles/" ++ vehicleId ++ "/history/".

(** The keys the handler retains, sorted and capped. *)
Definition history_keys (vehicleId : string) (from to : bound)
  : M (list (string * Z)) := λ w,
  let prefix := history_prefix vehicleId in
  (let! keys := list_pages (S (size (objects (s3 w)))) prefix from to None [] in
   ret (slice_last 2000 (sort_by_ts keys))) w.

(** [app.get("/api/history/:vehicleId", ...)], with [from] and [to]
    already converted. *)
Definition history (vehicleId : string) (from to : bound) (w : World)
  : HistoryResponse :=
  match (let! keys := history_keys vehicleId from to in fetch_all keys) w with
  | (_, inr results) => HistoryOk (List.length results) results
  | (_, inl e) => HistoryError e
  end.

Section Query.

(** [Number(text)] on a query-string value, kept to [NaN] and integers. *)
Variable Number : string → bound.

(** [req.query.x ? Number(req.query.x) : null]: an absent parameter is
    [undefined] and an empty one is the empty string, both falsy. *)
Definition query_bound (q : option string) : bound :=
  match q with
  | Some text => if String.eqb text "" then BNull else Number text
  | None => BNull
  end.

Definition get_history (vehicleId : string) (qfrom qto : option string) (w : World)
  : HistoryResponse :=
  history vehicleId (query_bound qfrom) (query_bound qto) w.

End Query.

(* ------------------------------------------------------------------ *)
(** ** Vocabulary of the specification *)

(** *** Permissions *)

(** The permission document stored under a key, the default shape standing
    for a missing one. *)
Definition perm_at (s : S3) (key : string) : Doc :=
  default empty_perm (objects s !! key).

Definition pending_of (s : S3) (key : string) : list jsval :=
  default [] (pending (perm_at s key)).

Definition accepted_of (s : S3) (key : string) : list jsval :=
  default [] (accepted (perm_at s key)).

(** Membership of the pair (vehicle [v], user [u]) in the four sets. *)
Definition veh_pending (s : S3) (v u : string) : Prop :=
  JStr u ∈ pending_of s (paths.vehPerm (JStr v)).

Definition veh_accepted (s : S3) (v u : string) : Prop :=
  JStr u ∈ accepted_of s (paths.vehPerm (JStr v)).

Definition usr_pending (s : S3) (v u : string) : Prop :=
  JStr v ∈ pending_of s (paths.userPerm (JStr u)).

Definition usr_accepted (s : S3) (v u : string) : Prop :=
  JStr v ∈ accepted_of s (paths.userPerm (JStr u)).

(** The symmetry invariant of the two document shapes. *)
Definition symmetric (s : S3) : Prop :=
  ∀ v u, (veh_pending s v u ↔ usr_pending s v u)
         ∧ (veh_accepted s v u ↔ usr_accepted s v u).

(** A stored permission document has both of its arrays. *)
Definition is_perm (d : Doc) : Prop :=
  is_Some (pending d) ∧ is_Some (accepted d).

Definition perm_docs_wf (s : S3) : Prop :=
  ∀ id d,
    objects s !! paths.vehPerm id = Some d ∨ objects s !! paths.userPerm id = Some d →
    is_perm d.

(** [request] and [grant] of the specification. *)
Inductive call : Type :=
  | Request (v u : string)
  | Grant (v u : string).

Definition run_call (c : call) : M (Doc * Doc) :=
  match c with
  | Request v u => updatePermission (JStr v) (JStr u) "pending"
  | Grant v u => updatePermission (JStr v) (JStr u) "accepted"
  end.

(** The call returned rather than threw. *)
Definition returned {A} (r : exn + A) : bool :=
  match r with
  | inr _ => true
  | inl _ => false
  end.


(** The pair is in neither document. *)
Definition unknown (s : S3) (v u : string) : Prop :=
  ¬ veh_pending s v u ∧ ¬ usr_pending s v u
  ∧ ¬ veh_accepted s v u ∧ ¬ usr_accepted s v u.

(** *** Realtime events and the gate *)

(** The events emitted between two worlds. *)
Definition pushed (w w' : World) : list Emit :=
  drop (List.length (sent w)) (sent w').

(** The [location:live] event for one accepted viewer. *)
Definition live_event (payload : Doc) (uid : jsval) : Emit :=
  mkEmit ("user:" ++ to_str uid) "location:live" payload.


(** The binding the gate gives a payload it lets through. *)
Definition binding (p : Payload) : SocketData :=
  if bool_decide (role p = JStr "user")
  then mkSocketData "user" (sub p) JUndefined
  else mkSocketData "device" JUndefined (sub p).

(** The gate as the specification words it: a handshake is let through
    exactly when its credential yields a payload with a subject and with
    the role [user] or [device]. *)
Definition gate_as_specified
    (jwt_verify JSON_parse_atob : string → exn + option Payload) (hs : Handshake) : Prop :=
  (∃ sd, auth_middleware jwt_verify JSON_parse_atob hs = inr sd)
  ↔ ∃ p, credential_payload jwt_verify JSON_parse_atob (handshake_token hs) = Some p
         ∧ truthy (sub p) = true
         ∧ (role p = JStr "user" ∨ role p = JStr "device").

(** *** History *)




(** The records that pass the bounds, in listing order. *)
Definition matching (s : S3) (v : string) (from to : bound) : list (string * Z) :=
  omap (match_key from to) (keys_under s (history_prefix v)).





(* ------------------------------------------------------------------ *)
(** ** Reading and writing, as functions of the world *)

(** What [updatePermission] does to one of its two documents, [x] being
    the counterpart identifier: [None] when a [TypeError] is thrown. *)
Definition mutate1 (status : string) (x : jsval) (d : Doc) : option Doc :=
  if String.eqb status "pending" then
    match pending d with
    | Some p => Some (set_pending d (push_if_absent p x))
    | None => None
    end
  else if String.eqb status "accepted" then
    match pending d, accepted d with
    | Some p, Some a =>
        Some (set_accepted (set_pending d (filter_ne p x)) (push_if_absent a x))
    | _, _ => None
    end
  else Some d.

(** The bucket after a successful write. *)
Definition stored (w : World) (key : string) (d : Doc) : World :=
  mkWorld (mkS3 (<[key := json_roundtrip d]> (objects (s3 w))) (up (s3 w))) (sent w).

(** What [getJSON] yields in a world. *)
Definition read (w : World) (key : string) (fallback : Doc) : Doc :=
  if up (s3 w) (GetObject key)
  then default fallback (objects (s3 w) !! key)
  else fallback.

(* ------------------------------------------------------------------ *)
(** ** Samples *)

(** *** Worlds, sockets and reports *)

(** An empty bucket on which every call succeeds. *)
Definition empty_world : World := mkWorld (mkS3 ∅ (λ _, true)) [].

(** A namespace with no connection yet. *)
Definition idle : Server := mkServer empty_world ∅ ∅ ∅ ∅.

Definition device_V1 : SocketData := mkSocketData "device" JUndefined (JStr "V1").
Definition device_V2 : SocketData := mkSocketData "device" JUndefined (JStr "V2").
Definition user_U1 : SocketData := mkSocketData "user" (JStr "U1") JUndefined.

(** A permission document with nothing pending. *)
Definition accepted_doc (ids : list jsval) : Doc :=
  mkDoc (Some []) (Some ids) JUndefined JUndefined None None None None.

(** Vehicle V1 has accepted user U1; every call succeeds. *)
Definition shared_V1 : World :=
  mkWorld
    (mkS3 (<[paths.vehPerm (JStr "V1") := accepted_doc [JStr "U1"]]>
             (<[paths.userPerm (JStr "U1") := accepted_doc [JStr "V1"]]> ∅))
          (λ _, true))
    [].

Definition report_V1 : Doc :=
  mkDoc None None (JStr "V1") JUndefined
        (Some (129 # 10)%Q) (Some (776 # 10)%Q) (Some (40 # 1)%Q) None.

(** A report of vehicle V2, and one that names no vehicle. *)
Definition report_V2 : Doc :=
  mkDoc None None (JStr "V2") JUndefined
        (Some (129 # 10)%Q) (Some (776 # 10)%Q) (Some (40 # 1)%Q) None.

Definition report_anonymous : Doc :=
  mkDoc None None JUndefined JUndefined
        (Some (129 # 10)%Q) (Some (776 # 10)%Q) (Some (40 # 1)%Q) None.

(** *** Sample credentials *)

(** A server whose secret signed nothing that is presented. *)
Definition nothing_verifies : string → exn + option Payload :=
  λ _, inl (Error "invalid signature").

(** [JSON.parse(atob(part))] on the payload parts used below, the base64
    text of [{"sub":"X","role":"admin"}], of [{"sub":"U1","role":"user"}]
    and of [{"sub":"V2","role":"device"}]. *)
Definition parse_samples : string → exn + option Payload :=
  λ part,
    if String.eqb part "eyJzdWIiOiJYIiwicm9sZSI6ImFkbWluIn0="
    then inr (Some (mkPayload (JStr "admin") (JStr "X")))
    else if String.eqb part "eyJzdWIiOiJVMSIsInJvbGUiOiJ1c2VyIn0="
    then inr (Some (mkPayload (JStr "user") (JStr "U1")))
    else if String.eqb part "eyJzdWIiOiJWMiIsInJvbGUiOiJkZXZpY2UifQ=="
    then inr (Some (mkPayload (JStr "device") (JStr "V2")))
    else inl (Error "Unexpected token").

(** The unsigned token the demo client would build for role [admin]. *)
Definition admin_handshake : Handshake :=
  mkHandshake
    (JStr "eyJhbGciOiJIUzI1NiIsInR5cCI6IkpXVCJ9.eyJzdWIiOiJYIiwicm9sZSI6ImFkbWluIn0=.fake-signature")
    JUndefined.

Definition user_handshake : Handshake :=
  mkHandshake
    (JStr "eyJhbGciOiJIUzI1NiIsInR5cCI6IkpXVCJ9.eyJzdWIiOiJVMSIsInJvbGUiOiJ1c2VyIn0=.fake-signature")
    JUndefined.

Definition device_handshake : Handshake :=
  mkHandshake
    JUndefined
    (JStr "eyJhbGciOiJIUzI1NiIsInR5cCI6IkpXVCJ9.eyJzdWIiOiJWMiIsInJvbGUiOiJkZXZpY2UifQ==.fake-signature").

(** *** Sample buckets for the history query *)

(** Two reports stamped in the same millisecond: one of vehicle [V1], one
    of a vehicle whose identifier runs into [V1]'s history prefix.  Both
    records lie under [vehicles/V1/history/] and carry the same timestamp. *)
Definition report_nested : Doc :=
  mkDoc None None (JStr "V1/history/copy") JUndefined
        (Some (129 # 10)%Q) (Some (776 # 10)%Q) (Some (40 # 1)%Q) None.

Definition doubled : World :=
  fst (on_location_update device_V1 (Some report_nested) 1700000000000
         (fst (on_location_update device_V1 (Some report_V1) 1700000000000 empty_world))).



(** *** The scenario of the specification

    User U1 connects and requests vehicle V2; device V2 connects, grants,
    and reports a position. *)
Definition scenario : list input :=
  [ Connect "socket-u" user_handshake;
    Connect "socket-d" device_handshake;
    Packet "socket-u" "location:request"
           (Some (mkDoc None None (JStr "V2") JUndefined None None None None))
           1700000000000;
    Packet "socket-d" "permission:granted"
           (Some (mkDoc None None (JStr "V2") (JStr "U1") None None None None))
           1700000000500;
    Packet "socket-d" "location:update" (Some report_V2) 1700000001000 ].

(* ------------------------------------------------------------------ *)
(** ** Beyond the specification: the rest of the server *)

(** *** The permission endpoints *)

(** [app.get("/api/user/:userId/permissions", ...)]: the body of the
    response is [await getJSON(paths.userPerm(req.params.userId))]. *)
Definition get_user_permissions (userId : string) : M Doc :=
  getJSON (paths.userPerm (JStr userId)) empty_obj.

(** [app.get("/api/vehicle/:vehicleId/permissions", ...)]. *)
Definition get_vehicle_permissions (vehicleId : string) : M Doc :=
  getJSON (paths.vehPerm (JStr vehicleId)) empty_obj.

(** *** Invariants of the permission documents *)




(** The bucket of [w'] answers, its permission documents are well formed,
    and every accepted entry of [w] is still one of [w']. *)
Definition keeps_access (w w' : World) : Prop :=
  healthy (s3 w') ∧ perm_docs_wf (s3 w')
  ∧ ∀ id (y : string),
      (JStr y ∈ accepted_of (s3 w) (paths.vehPerm id)
       → JStr y ∈ accepted_of (s3 w') (paths.vehPerm id))
      ∧ (JStr y ∈ accepted_of (s3 w) (paths.userPerm id)
         → JStr y ∈ accepted_of (s3 w') (paths.userPerm id)).

(** *** Decimal text *)

(** The characters of an unsigned decimal. *)
Definition uint_chars (d : Decimal.uint) : list ascii :=
  list_ascii_of_string (NilEmpty.string_of_uint d).

(** *** The registry *)

(** The room a connection is joined to when it opens. *)
Definition room_of (sd : SocketData) : option string :=
  if String.eqb (data_role sd) "user"
  then Some ("user:" ++ to_str (data_userId sd))
  else if String.eqb (data_role sd) "device"
  then Some ("vehicle:" ++ to_str (data_vehicleId sd))
  else None.

(** The socket ids of the handshakes of a run; socket.io gives every
    socket an id of its own. *)
Fixpoint connect_ids (inputs : list input) : list string :=
  match inputs with
  | [] => []
  | Connect sid _ :: inputs' => sid :: connect_ids inputs'
  | _ :: inputs' => connect_ids inputs'
  end.

(** The rooms and the two socket maps hold the open connections, each
    under the identity the gate bound it to, and nothing else. *)
Definition registry_mirrors (srv : Server) : Prop :=
  (∀ r sid, sid ∈ default ∅ (rooms srv !! r)
            ↔ ∃ sd, sockets srv !! sid = Some sd ∧ room_of sd = Some r)
  ∧ (∀ uid sid, sid ∈ default ∅ (userSockets srv !! uid)
                ↔ ∃ sd, sockets srv !! sid = Some sd
                        ∧ data_role sd = "user" ∧ data_userId sd = uid)
  ∧ (∀ vid sid, sid ∈ default ∅ (vehicleSockets srv !! vid)
                ↔ ∃ sd, sockets srv !! sid = Some sd
                        ∧ data_role sd = "device" ∧ data_vehicleId sd = vid).

(** Every open socket was let in by the gate, under the binding it has,
    by a handshake of the run so far. *)
Definition passed_gate
    (jwt_verify JSON_parse_atob : string → exn + option Payload)
    (past : list input) (srv : Server) : Prop :=
  ∀ sid sd, sockets srv !! sid = Some sd →
            ∃ hs, Connect sid hs ∈ past
                  ∧ auth_middleware jwt_verify JSON_parse_atob hs = inr sd.

(** Every open socket carries a binding the gate produced. *)
Definition bound_by_gate
    (jwt_verify JSON_parse_atob : string → exn + option Payload) (srv : Server) : Prop :=
  ∀ sid sd, sockets srv !! sid = Some sd →
            ∃ hs, auth_middleware jwt_verify JSON_parse_atob hs = inr sd.

(** *** What is pushed, and to whom *)

(** The three pushes of the server, each with the room it is addressed to:
    a position goes to a user's room; a permission request goes to the room
    of the vehicle it names, and names a user; a grant goes to the room of
    the user it names. *)
Definition well_addressed (e : Emit) : Prop :=
  (event e = "location:live" ∧ ∃ uid, room e = "user:" ++ to_str uid)
  ∨ (event e = "user:locationPermission"
     ∧ room e = "vehicle:" ++ to_str (vehicleId (body e))
     ∧ truthy (vehicleId (body e)) = true ∧ truthy (userId (body e)) = true)
  ∨ (event e = "permission:granted"
     ∧ room e = "user:" ++ to_str (userId (body e))).

(* ------------------------------------------------------------------ *)
(** ** The demo client *)

(** *** [AuthContext.login] and [useSocket] *)

(** No character of [s] is a dot (as in base64 text). *)
Definition dotless (s : string) : bool :=
  forallb (λ c, negb (Ascii.eqb c ".")) (list_ascii_of_string s).

(** [btoa(JSON.stringify({ alg: 'HS256', typ: 'JWT' }))]. *)
Definition login_header : string := "eyJhbGciOiJIUzI1NiIsInR5cCI6IkpXVCJ9".

Section AuthContext.

(** [btoa(JSON.stringify({ sub, role }))]. *)
Variable btoa_JSON_stringify : Payload → string.

(** The token [login(id, role)] stores:
    [`${header}.${payload}.fake-signature`]. *)
Definition login (id role : string) : string :=
  login_header ++ "." ++ btoa_JSON_stringify (mkPayload (JStr role) (JStr id))
  ++ ".fake-signature".

End AuthContext.

(** [io(url, { path: '/ws', auth: { token: user.token } })]. *)
Definition useSocket_handshake (token : string) : Handshake :=
  mkHandshake (JStr token) JUndefined.

(** *** [UserDashboard] *)

(** [!!x] for a number field: absent and zero are falsy. *)
Definition truthy_number (x : option Q) : bool :=
  match x with
  | Some q => negb (Qnum q =? 0)
  | None => false
  end.

(** A row of [vehicles]: the fields of the object, and its [status]. *)
Record VehicleData : Type := mkVehicleData {
  fields : Doc;
  status : string
}.

(** [{ vehicleId: vid, status }]. *)
Definition bare_row (vid : jsval) (status : string) : VehicleData :=
  mkVehicleData (mkDoc None None vid JUndefined None None None None) status.

(** The [vehicleId]s of the rows, in order. *)
Definition row_ids (rows : list VehicleData) : list jsval :=
  (λ v, vehicleId (fields v)) <$> rows.

(** The [setVehicles] update of [socket.on('location:live', ...)]. *)
Definition on_location_live (prev : list VehicleData) (data : Doc) : list VehicleData :=
  match find (λ v, bool_decide (vehicleId (fields v) = vehicleId data)) prev with
  | Some _ =>
      map (λ v, if bool_decide (vehicleId (fields v) = vehicleId data)
                then mkVehicleData data "accepted" else v) prev
  | None => (prev ++ [mkVehicleData data "accepted"])%list
  end.

(** The [setVehicles] update of [socket.on('permission:granted', ...)]. *)
Definition on_granted (prev : list VehicleData) (vid : jsval) : list VehicleData :=
  map (λ v, if bool_decide (vehicleId (fields v) = vid)
            then mkVehicleData (fields v) "accepted" else v) prev.

(** What the dashboard does with an event its socket is sent. *)
Definition user_receives (prev : list VehicleData) (e : Emit) : list VehicleData :=
  if String.eqb (event e) "location:live" then on_location_live prev (body e)
  else if String.eqb (event e) "permission:granted" then on_granted prev (vehicleId (body e))
  else prev.

(** The rows built from the response of [/api/user/:id/permissions]:
    [[...accepted, ...pending]]. *)
Definition fetched_vehicles (data : Doc) : list VehicleData :=
  (((λ vid, bare_row vid "accepted") <$> default [] (accepted data))
   ++ ((λ vid, bare_row vid "pending") <$> default [] (pending data)))%list.

(** The [setVehicles] update of [handleRequestAccess] on [{ ok: true }]. *)
Definition on_request_ok (prev : list VehicleData) (vid : string) : list VehicleData :=
  if existsb (λ v, bool_decide (vehicleId (fields v) = JStr vid)) prev
  then prev
  else (prev ++ [bare_row (JStr vid) "pending"])%list.

(** [vehicles.filter((v) => v.status === 'accepted' && v.lat && v.lng)],
    the vehicles put on the map. *)
Definition activeVehicles (vehicles : list VehicleData) : list VehicleData :=
  filter (λ v, String.eqb (status v) "accepted"
               && truthy_number (lat (fields v)) && truthy_number (lng (fields v)) = true)
         vehicles.

(** *** [DeviceDashboard] *)

(** The one listener it registers, [socket.on('permission:request', onReq)],
    appends to [requests]. *)
Definition device_receives (requests : list Doc) (e : Emit) : list Doc :=
  if String.eqb (event e) "permission:request" then (requests ++ [body e])%list
  else requests.

(** The payload [handleGrantPermission(userId)] sends with
    [permission:granted]: [{ userId, vehicleId: user.id }]. *)
Definition grant_payload (self userId : string) : Doc :=
  mkDoc None None (JStr self) (JStr userId) None None None None.

(** [requests] as built from the response of
    [/api/vehicle/:id/permissions]: [{ userId, vehicleId: user.id, ts: Date.now() }]
    for each pending entry, [now i] being the clock at the [i]-th entry. *)
Definition fetched_requests (self : string) (now : nat → Z) (data : Doc) : list Doc :=
  imap (λ i uid, mkDoc None None (JStr self) uid None None None (Some (now i)))
       (default [] (pending data)).

(* ------------------------------------------------------------------ *)
(** ** More samples *)

(** The payload of a [location:request] for vehicle V1. *)
Definition request_V1 : Doc :=
  mkDoc None None (JStr "V1") JUndefined None None None None.

(** An empty bucket on which one call fails: the write of U1's permission
    document. *)
Definition user_write_fails : World :=
  mkWorld (mkS3 ∅ (λ op, negb (bool_decide (op = PutObject (paths.userPerm (JStr "U1"))))))
          [].

(** [btoa(JSON.stringify(p))] on the payloads of the sample credentials. *)
Definition encode_samples : Payload → string :=
  λ p, if bool_decide (role p = JStr "user")
       then "eyJzdWIiOiJVMSIsInJvbGUiOiJ1c2VyIn0="
       else "eyJzdWIiOiJWMiIsInJvbGUiOiJkZXZpY2UifQ==".

(** [Number] on the query texts used below. *)
Definition number_samples : string → bound :=
  λ text, if String.eqb text "0" then BNum 0
          else if String.eqb text "1700000000000" then BNum 1700000000000
          else BNaN.

(* ================================================================== *)
(** * Properties *)

(** ** The model at work *)

Example path_history_example :
  paths.history (JStr "V1") 1700000000000
  = "vehicles/V1/history/2023/11/14/1700000000000.json".
Proof. reflexivity. Qed.

Example path_history_leap_day :
  paths.history JUndefined 951782400000
  = "vehicles/undefined/history/2000/02/29/951782400000.json".
Proof. reflexivity. Qed.

Example key_ts_examples :
  key_ts "vehicles/V1/history/2023/11/14/1700000000000.json" = Some 1700000000000
  ∧ key_ts "vehicles/V1/history/2023/11/14/a1700000000000.json" = None
  ∧ key_ts "vehicles/V1/history/.json" = None
  ∧ key_ts "vehicles/V1/history/12.json.bak" = None
  ∧ key_ts "/007.json" = Some 7
  ∧ key_ts "7.json" = None.
Proof. repeat split. Qed.

Example history_key_is_read_back :
  key_ts (paths.history (JStr "V1") 1700000000000) = Some 1700000000000.
Proof. reflexivity. Qed.

Example split_dot_examples :
  split_dot "a.b.c" = ["a"; "b"; "c"] ∧ split_dot "" = [""] ∧ split_dot "a." = ["a"; ""].
Proof. repeat split. Qed.

Example gate_examples :
  auth_middleware nothing_verifies parse_samples user_handshake
  = inr (mkSocketData "user" (JStr "U1") JUndefined)
  ∧ auth_middleware nothing_verifies parse_samples device_handshake
    = inr (mkSocketData "device" JUndefined (JStr "V2"))
  ∧ auth_middleware nothing_verifies parse_samples (mkHandshake (JStr "garbage") JUndefined)
    = inl (Error "Unauthorized")
  ∧ auth_middleware nothing_verifies parse_samples (mkHandshake JUndefined JUndefined)
    = inl (Error "Unauthorized").
Proof. repeat split. Qed.

(** The scenario of the specification: U1 requests V2, V2 grants, V2
    reports; every step is acknowledged, and U1's only socket is sent
    exactly one [location:live], carrying the report with the server's
    timestamp. *)
Example scenario_run :
  let r := run nothing_verifies parse_samples idle scenario in
  snd r = [Connected; Connected;
           Acked (AckOk (Some "Permission request sent"));
           Acked (AckOk None); Acked (AckOk None)]
  ∧ filter (λ e, event e = "location:live") (sent (world (fst r)))
    = [live_event (position_report report_V2 1700000001000) (JStr "U1")]
  ∧ elements (recipients (fst r)
                (live_event (position_report report_V2 1700000001000) (JStr "U1")))
    = ["socket-u"].
Proof. vm_compute. repeat split. Qed.

(** ** Keys *)

Lemma length_append (a b : string) :
  String.length (a ++ b) = (String.length a + String.length b)%nat.
Proof. induction a as [|c a IH]; simpl; [done | by rewrite IH]. Qed.

Lemma append_inj_r (s a b : string) : a ++ s = b ++ s → a = b.
Proof.
  revert b. induction a as [|c a IH]; intros [|c' b] H.
  - done.
  - apply (f_equal String.length) in H.
    rewrite !length_append in H. simpl in H. lia.
  - apply (f_equal String.length) in H.
    rewrite !length_append in H. simpl in H. lia.
  - simpl in H. injection H as -> H. f_equal. by apply IH.
Qed.

Lemma vehPerm_inj (a b : string) :
  paths.vehPerm (JStr a) = paths.vehPerm (JStr b) → a = b.
Proof.
  unfold paths.vehPerm. simpl. intros H.
  apply (inj (String.append _)) in H. by apply append_inj_r in H.
Qed.

Lemma userPerm_inj (a b : string) :
  paths.userPerm (JStr a) = paths.userPerm (JStr b) → a = b.
Proof.
  unfold paths.userPerm. simpl. intros H.
  apply (inj (String.append _)) in H. by apply append_inj_r in H.
Qed.

Lemma vehPerm_ne_userPerm (a b : jsval) : paths.vehPerm a ≠ paths.userPerm b.
Proof. unfold paths.vehPerm, paths.userPerm. discriminate. Qed.

Lemma current_ne_vehPerm (a b : jsval) : paths.current a ≠ paths.vehPerm b.
Proof. unfold paths.current, paths.vehPerm. discriminate. Qed.

Lemma history_ne_vehPerm (a b : jsval) (t : Z) : paths.history a t ≠ paths.vehPerm b.
Proof.
  unfold paths.history, paths.vehPerm. destruct (civil t) as [[y m] d].
  discriminate.
Qed.

(** ** The permission state machine *)

Lemma getJSON_read (key : string) (fallback : Doc) (w : World) :
  getJSON key fallback w = (w, inr (read w key fallback)).
Proof. unfold getJSON, read. by destruct (up (s3 w) (GetObject key)). Qed.

(** [updatePermission] as a function of what it reads. *)
Lemma updatePermission_run (vid uid : jsval) (status : string) (w : World) :
  updatePermission vid uid status w =
  match mutate1 status uid (read w (paths.vehPerm vid) empty_perm),
        mutate1 status vid (read w (paths.userPerm uid) empty_perm) with
  | Some veh, Some usr =>
      if up (s3 w) (PutObject (paths.vehPerm vid)) then
        if up (s3 w) (PutObject (paths.userPerm uid))
        then (stored (stored w (paths.vehPerm vid) veh) (paths.userPerm uid) usr,
              inr (veh, usr))
        else (stored w (paths.vehPerm vid) veh, inl S3Error)
      else (w, inl S3Error)
  | _, _ => (w, inl TypeError)
  end.
Proof.
  unfold updatePermission, bind. rewrite !getJSON_read.
  generalize (read w (paths.vehPerm vid) empty_perm) as veh.
  generalize (read w (paths.userPerm uid) empty_perm) as usr.
  intros usr veh. unfold mutate1, putJSON, defined, stored, ret, throw.
  destruct (String.eqb status "pending"); [|destruct (String.eqb status "accepted")];
    simpl;
    destruct (pending veh), (pending usr); simpl;
    try (destruct (accepted veh), (accepted usr); simpl);
    destruct (up (s3 w) (PutObject (paths.vehPerm vid))); simpl;
    destruct (up (s3 w) (PutObject (paths.userPerm uid))); reflexivity.
Qed.

Lemma json_cell_str (l : list jsval) (x : string) :
  JStr x ∈ json_cell <$> l ↔ JStr x ∈ l.
Proof.
  rewrite list_elem_of_fmap. split.
  - intros ([| |y] & Hy & Hin); simpl in Hy; try discriminate. by injection Hy as ->.
  - intros Hin. by exists (JStr x).
Qed.



Lemma push_if_absent_str (l : list jsval) (x y : string) :
  JStr y ∈ push_if_absent l (JStr x) ↔ y = x ∨ JStr y ∈ l.
Proof.
  unfold push_if_absent, includes. case_bool_decide as Hin.
  - split; [by right | intros [->|]; done].
  - rewrite elem_of_app, list_elem_of_singleton. split.
    + intros [|[= ->]]; [by right | by left].
    + intros [->|]; [by right | by left].
Qed.

Lemma filter_ne_str (l : list jsval) (x y : string) :
  JStr y ∈ filter_ne l (JStr x) ↔ y ≠ x ∧ JStr y ∈ l.
Proof.
  unfold filter_ne. rewrite list_elem_of_filter. split.
  - intros [Hne Hin]. split; [congruence | done].
  - intros [Hne Hin]. split; [congruence | done].
Qed.










(** *** Transitions on a healthy bucket *)

Lemma read_healthy (w : World) (key : string) :
  healthy (s3 w) → read w key empty_perm = perm_at (s3 w) key.
Proof. intros H. unfold read, perm_at. by rewrite H. Qed.

Lemma is_perm_empty : is_perm empty_perm.
Proof. split; by eexists. Qed.

Lemma perm_at_wf (s : S3) (id : jsval) :
  perm_docs_wf s →
  is_perm (perm_at s (paths.vehPerm id)) ∧ is_perm (perm_at s (paths.userPerm id)).
Proof.
  intros Hwf. unfold perm_at. split.
  - destruct (objects s !! paths.vehPerm id) eqn:E; simpl;
      [eapply Hwf; by left | apply is_perm_empty].
  - destruct (objects s !! paths.userPerm id) eqn:E; simpl;
      [eapply Hwf; by right | apply is_perm_empty].
Qed.

Lemma mutate1_is_perm (status : string) (x : jsval) (d d' : Doc) :
  is_perm d → mutate1 status x d = Some d' → is_perm (json_roundtrip d').
Proof.
  intros [[p Hp] [a Ha]]. unfold mutate1. rewrite Hp, Ha.
  destruct (String.eqb status "pending"); [|destruct (String.eqb status "accepted")];
    intros [= <-]; unfold is_perm, json_roundtrip; simpl; rewrite ?Hp, ?Ha; simpl;
    split; by eexists.
Qed.

Lemma mutate1_defined (status : string) (x : jsval) (d : Doc) :
  is_perm d → is_Some (mutate1 status x d).
Proof.
  intros [[p Hp] [a Ha]]. unfold mutate1. rewrite Hp, Ha.
  destruct (String.eqb status "pending"); [|destruct (String.eqb status "accepted")];
    by eexists.
Qed.

(** On a healthy bucket with well-formed documents the call returns, and
    writes both mutated documents. *)
Lemma updatePermission_healthy (status v u : string) (w : World) :
  healthy (s3 w) → perm_docs_wf (s3 w) →
  ∃ veh usr,
    mutate1 status (JStr u) (perm_at (s3 w) (paths.vehPerm (JStr v))) = Some veh
    ∧ mutate1 status (JStr v) (perm_at (s3 w) (paths.userPerm (JStr u))) = Some usr
    ∧ updatePermission (JStr v) (JStr u) status w
      = (stored (stored w (paths.vehPerm (JStr v)) veh) (paths.userPerm (JStr u)) usr,
         inr (veh, usr)).
Proof.
  intros Hh Hwf.
  destruct (perm_at_wf _ (JStr v) Hwf) as [Hv _].
  destruct (perm_at_wf _ (JStr u) Hwf) as [_ Hu].
  destruct (mutate1_defined status (JStr u) _ Hv) as [veh Hveh].
  destruct (mutate1_defined status (JStr v) _ Hu) as [usr Husr].
  exists veh, usr. split; [done|]. split; [done|].
  rewrite updatePermission_run, !read_healthy, Hveh, Husr, !Hh by done.
  done.
Qed.

Lemma perm_at_stored2 (w : World) (kv ku k : string) (veh usr : Doc) :
  perm_at (s3 (stored (stored w kv veh) ku usr)) k
  = if decide (k = ku) then json_roundtrip usr
    else if decide (k = kv) then json_roundtrip veh
    else perm_at (s3 w) k.
Proof.
  unfold perm_at, stored. simpl.
  destruct (decide (k = ku)) as [->|]; [by rewrite lookup_insert_eq|].
  rewrite lookup_insert_ne by done.
  destruct (decide (k = kv)) as [->|]; [by rewrite lookup_insert_eq|].
  by rewrite lookup_insert_ne.
Qed.

Lemma stored2_wf (w : World) (v u : jsval) (veh usr : Doc) :
  perm_docs_wf (s3 w) →
  is_perm (json_roundtrip veh) → is_perm (json_roundtrip usr) →
  perm_docs_wf (s3 (stored (stored w (paths.vehPerm v) veh) (paths.userPerm u) usr)).
Proof.
  intros Hwf Hv Hu id d. unfold stored. simpl. intros [H|H].
  - rewrite lookup_insert_ne in H by (apply not_eq_sym, vehPerm_ne_userPerm).
    destruct (decide (paths.vehPerm id = paths.vehPerm v)) as [E|E].
    + rewrite E, lookup_insert_eq in H. by injection H as <-.
    + rewrite lookup_insert_ne in H by done. eapply Hwf. by left.
  - destruct (decide (paths.userPerm id = paths.userPerm u)) as [E|E].
    + rewrite E, lookup_insert_eq in H. by injection H as <-.
    + rewrite lookup_insert_ne in H by done.
      rewrite lookup_insert_ne in H by apply vehPerm_ne_userPerm.
      eapply Hwf. by right.
Qed.

(** Membership of a string in the two arrays of a mutated document, as it
    is read back. *)
Lemma mutate1_pending_mem (x y : string) (d d' : Doc) :
  mutate1 "pending" (JStr x) d = Some d' →
  (JStr y ∈ default [] (pending (json_roundtrip d'))
     ↔ y = x ∨ JStr y ∈ default [] (pending d))
  ∧ (JStr y ∈ default [] (accepted (json_roundtrip d'))
     ↔ JStr y ∈ default [] (accepted d)).
Proof.
  unfold mutate1. simpl. destruct d as [[p|] a vid uid la ln sp t]; simpl; [|done].
  intros [= <-]. simpl. split.
  - by rewrite json_cell_str, push_if_absent_str.
  - destruct a as [a|]; simpl; [by rewrite json_cell_str | done].
Qed.

Lemma mutate1_accepted_mem (x y : string) (d d' : Doc) :
  mutate1 "accepted" (JStr x) d = Some d' →
  (JStr y ∈ default [] (pending (json_roundtrip d'))
     ↔ y ≠ x ∧ JStr y ∈ default [] (pending d))
  ∧ (JStr y ∈ default [] (accepted (json_roundtrip d'))
     ↔ y = x ∨ JStr y ∈ default [] (accepted d)).
Proof.
  unfold mutate1. simpl. destruct d as [[p|] [a|] vid uid la ln sp t]; simpl; try done.
  intros [= <-]. simpl. split.
  - by rewrite json_cell_str, filter_ne_str.
  - by rewrite json_cell_str, push_if_absent_str.
Qed.

Ltac perm_key_cases :=
  repeat first
    [ rewrite decide_False by apply vehPerm_ne_userPerm
    | rewrite decide_False by (apply not_eq_sym, vehPerm_ne_userPerm)
    | case_decide ];
  repeat match goal with
  | E : paths.vehPerm (JStr _) = paths.vehPerm (JStr _) |- _ =>
      apply vehPerm_inj in E
  | E : paths.userPerm (JStr _) = paths.userPerm (JStr _) |- _ =>
      apply userPerm_inj in E
  | E : paths.vehPerm (JStr ?a) ≠ paths.vehPerm (JStr ?b) |- _ =>
      assert (a ≠ b) by (by intros ->); clear E
  | E : paths.userPerm (JStr ?a) ≠ paths.userPerm (JStr ?b) |- _ =>
      assert (a ≠ b) by (by intros ->); clear E
  end;
  subst.

(** [request]: the pair becomes pending in both documents; nothing else
    changes. *)
Lemma request_effect (v u : string) (w : World) :
  healthy (s3 w) → perm_docs_wf (s3 w) →
  let r := updatePermission (JStr v) (JStr u) "pending" w in
  returned (snd r) = true
  ∧ healthy (s3 (fst r)) ∧ perm_docs_wf (s3 (fst r))
  ∧ ∀ v' u',
      (veh_pending (s3 (fst r)) v' u' ↔ (v' = v ∧ u' = u) ∨ veh_pending (s3 w) v' u')
      ∧ (usr_pending (s3 (fst r)) v' u' ↔ (v' = v ∧ u' = u) ∨ usr_pending (s3 w) v' u')
      ∧ (veh_accepted (s3 (fst r)) v' u' ↔ veh_accepted (s3 w) v' u')
      ∧ (usr_accepted (s3 (fst r)) v' u' ↔ usr_accepted (s3 w) v' u').
Proof.
  intros Hh Hwf.
  destruct (updatePermission_healthy "pending" v u w Hh Hwf) as (veh & usr & Hv & Hu & ->).
  destruct (perm_at_wf _ (JStr v) Hwf) as [Hpv _].
  destruct (perm_at_wf _ (JStr u) Hwf) as [_ Hpu].
  cbn [fst snd returned]. split; [done|]. split; [done|].
  split; [apply stored2_wf;
    [done | by apply (mutate1_is_perm _ _ _ _ Hpv Hv)
          | by apply (mutate1_is_perm _ _ _ _ Hpu Hu)]|].
  intros v' u'.
  pose proof (mutate1_pending_mem u u' _ _ Hv) as [Hvp Hva].
  pose proof (mutate1_pending_mem v v' _ _ Hu) as [Hup Hua].
  unfold veh_pending, usr_pending, veh_accepted, usr_accepted, pending_of, accepted_of.
  rewrite !perm_at_stored2.
  perm_key_cases; rewrite ?Hvp, ?Hva, ?Hup, ?Hua; intuition congruence.
Qed.

(** [grant]: the pair leaves both pending sets and enters both accepted
    sets; nothing else changes. *)
Lemma grant_effect (v u : string) (w : World) :
  healthy (s3 w) → perm_docs_wf (s3 w) →
  let r := updatePermission (JStr v) (JStr u) "accepted" w in
  returned (snd r) = true
  ∧ healthy (s3 (fst r)) ∧ perm_docs_wf (s3 (fst r))
  ∧ ∀ v' u',
      (veh_pending (s3 (fst r)) v' u' ↔ ¬ (v' = v ∧ u' = u) ∧ veh_pending (s3 w) v' u')
      ∧ (usr_pending (s3 (fst r)) v' u' ↔ ¬ (v' = v ∧ u' = u) ∧ usr_pending (s3 w) v' u')
      ∧ (veh_accepted (s3 (fst r)) v' u' ↔ (v' = v ∧ u' = u) ∨ veh_accepted (s3 w) v' u')
      ∧ (usr_accepted (s3 (fst r)) v' u' ↔ (v' = v ∧ u' = u) ∨ usr_accepted (s3 w) v' u').
Proof.
  intros Hh Hwf.
  destruct (updatePermission_healthy "accepted" v u w Hh Hwf) as (veh & usr & Hv & Hu & ->).
  destruct (perm_at_wf _ (JStr v) Hwf) as [Hpv _].
  destruct (perm_at_wf _ (JStr u) Hwf) as [_ Hpu].
  cbn [fst snd returned]. split; [done|]. split; [done|].
  split; [apply stored2_wf;
    [done | by apply (mutate1_is_perm _ _ _ _ Hpv Hv)
          | by apply (mutate1_is_perm _ _ _ _ Hpu Hu)]|].
  intros v' u'.
  pose proof (mutate1_accepted_mem u u' _ _ Hv) as [Hvp Hva].
  pose proof (mutate1_accepted_mem v v' _ _ Hu) as [Hup Hua].
  unfold veh_pending, usr_pending, veh_accepted, usr_accepted, pending_of, accepted_of.
  rewrite !perm_at_stored2.
  perm_key_cases; rewrite ?Hvp, ?Hva, ?Hup, ?Hua; intuition congruence.
Qed.

(** ** C2, C4, C9: the symmetry invariant and the transitions *)

Lemma symmetric_step (c : call) (w : World) :
  healthy (s3 w) → perm_docs_wf (s3 w) → symmetric (s3 w) →
  returned (snd (run_call c w)) = true
  ∧ healthy (s3 (fst (run_call c w)))
  ∧ perm_docs_wf (s3 (fst (run_call c w)))
  ∧ symmetric (s3 (fst (run_call c w))).
Proof.
  intros Hh Hwf Hsym. destruct c as [v u|v u]; simpl.
  - destruct (request_effect v u w Hh Hwf) as (Hr & Hh' & Hwf' & Heff).
    do 3 (split; [done|]). intros v' u'.
    destruct (Heff v' u') as (E1 & E2 & E3 & E4), (Hsym v' u') as [S1 S2].
    rewrite E1, E2, E3, E4. tauto.
  - destruct (grant_effect v u w Hh Hwf) as (Hr & Hh' & Hwf' & Heff).
    do 3 (split; [done|]). intros v' u'.
    destruct (Heff v' u') as (E1 & E2 & E3 & E4), (Hsym v' u') as [S1 S2].
    rewrite E1, E2, E3, E4. tauto.
Qed.



Lemma empty_world_healthy : healthy (s3 empty_world).
Proof. intros op. reflexivity. Defined.

Lemma empty_world_wf : perm_docs_wf (s3 empty_world).
Proof. intros id d [H|H]; simpl in H; rewrite lookup_empty in H; discriminate. Defined.

Lemma empty_world_unknown (v u : string) : unknown (s3 empty_world) v u.
Proof.
  unfold unknown, veh_pending, usr_pending, veh_accepted, usr_accepted,
    pending_of, accepted_of, perm_at. simpl. rewrite !lookup_empty. simpl.
  repeat split; apply not_elem_of_nil.
Defined.

Lemma empty_world_symmetric : symmetric (s3 empty_world).
Proof.
  intros v u. destruct (empty_world_unknown v u) as (H1 & H2 & H3 & H4).
  split; split; intros H; contradiction.
Defined.


(** Why the bucket must answer: when the read of V1's document fails, the
    default shape stands in for it and is written back, and the accepted
    pair (V1, U1) survives in the user's document only. *)
Example symmetry_lost_on_read_failure :
  let w := mkWorld (mkS3 (objects (s3 shared_V1))
                         (λ op, bool_decide (op ≠ GetObject (paths.vehPerm (JStr "V1")))))
                   [] in
  let w' := fst (run_call (Request "V1" "U2") w) in
  symmetric (s3 shared_V1)
  ∧ usr_accepted (s3 w') "V1" "U1" ∧ ¬ veh_accepted (s3 w') "V1" "U1".
Proof.
  cbn zeta. split; [|split].
  - assert (s3 shared_V1 = s3 (fst (run_call (Grant "V1" "U1") empty_world))) as ->
      by (vm_compute; reflexivity).
    apply (symmetric_step (Grant "V1" "U1") empty_world
             empty_world_healthy empty_world_wf empty_world_symmetric).
  - unfold usr_accepted. apply (bool_decide_unpack _). vm_compute. exact I.
  - unfold veh_accepted. apply (bool_decide_eq_false_1 _). vm_compute. reflexivity.
Qed.

(** After [grant] the pair is accepted and not pending, in both documents,
    whatever its state was. *)
Lemma grant_accepts (v u : string) (w : World) :
  healthy (s3 w) → perm_docs_wf (s3 w) →
  let r := run_call (Grant v u) w in
  returned (snd r) = true
  ∧ veh_accepted (s3 (fst r)) v u ∧ usr_accepted (s3 (fst r)) v u
  ∧ ¬ veh_pending (s3 (fst r)) v u ∧ ¬ usr_pending (s3 (fst r)) v u.
Proof.
  intros Hh Hwf. simpl.
  destruct (grant_effect v u w Hh Hwf) as (Hr & _ & _ & Heff).
  destruct (Heff v u) as (E1 & E2 & E3 & E4).
  rewrite E1, E2, E3, E4. tauto.
Qed.

(** C4: [grant] after [request], on a healthy bucket with well-formed
    documents: both calls return; afterwards the pair is in the accepted
    set and not in the pending set of the vehicle-keyed and of the
    user-keyed document, so in neither document is it pending and accepted
    at once; and when the pair was not accepted to begin with, the state
    between the two calls has it pending and not accepted in both. *)
Theorem grant_after_request (v u : string) (w : World) :
  healthy (s3 w) → perm_docs_wf (s3 w) →
  let r1 := run_call (Request v u) w in
  let r2 := run_call (Grant v u) (fst r1) in
  returned (snd r1) = true ∧ returned (snd r2) = true
  ∧ (veh_pending (s3 (fst r1)) v u ∧ usr_pending (s3 (fst r1)) v u)
  ∧ (¬ veh_pending (s3 (fst r2)) v u ∧ ¬ usr_pending (s3 (fst r2)) v u)
  ∧ (veh_accepted (s3 (fst r2)) v u ∧ usr_accepted (s3 (fst r2)) v u)
  ∧ ¬ (veh_pending (s3 (fst r2)) v u ∧ veh_accepted (s3 (fst r2)) v u)
  ∧ ¬ (usr_pending (s3 (fst r2)) v u ∧ usr_accepted (s3 (fst r2)) v u)
  ∧ (¬ veh_accepted (s3 w) v u → ¬ usr_accepted (s3 w) v u →
     ¬ veh_accepted (s3 (fst r1)) v u ∧ ¬ usr_accepted (s3 (fst r1)) v u).
Proof.
  intros Hh Hwf. simpl.
  destruct (request_effect v u w Hh Hwf) as (Hr1 & Hh1 & Hwf1 & Heff1).
  destruct (grant_accepts v u _ Hh1 Hwf1) as (Hr2 & Hva & Hua & Hvp & Hup).
  destruct (Heff1 v u) as (E1 & E2 & E3 & E4).
  simpl in *. rewrite E1, E2, E3, E4. tauto.
Qed.

Lemma grant_after_request_witness :
  let r1 := run_call (Request "V2" "U1") empty_world in
  let r2 := run_call (Grant "V2" "U1") (fst r1) in
  returned (snd r1) = true ∧ returned (snd r2) = true
  ∧ (veh_pending (s3 (fst r1)) "V2" "U1" ∧ usr_pending (s3 (fst r1)) "V2" "U1")
  ∧ (¬ veh_pending (s3 (fst r2)) "V2" "U1" ∧ ¬ usr_pending (s3 (fst r2)) "V2" "U1")
  ∧ (veh_accepted (s3 (fst r2)) "V2" "U1" ∧ usr_accepted (s3 (fst r2)) "V2" "U1")
  ∧ ¬ (veh_pending (s3 (fst r2)) "V2" "U1" ∧ veh_accepted (s3 (fst r2)) "V2" "U1")
  ∧ ¬ (usr_pending (s3 (fst r2)) "V2" "U1" ∧ usr_accepted (s3 (fst r2)) "V2" "U1")
  ∧ (¬ veh_accepted (s3 empty_world) "V2" "U1" → ¬ usr_accepted (s3 empty_world) "V2" "U1" →
     ¬ veh_accepted (s3 (fst r1)) "V2" "U1" ∧ ¬ usr_accepted (s3 (fst r1)) "V2" "U1").
Proof.
  apply (grant_after_request "V2" "U1" empty_world empty_world_healthy empty_world_wf).
Defined.

(** ** The handlers *)

Lemma for_of_emit (ev : string) (p : Doc) (f : jsval → string) (l : list jsval) (w : World) :
  for_of l (λ uid, emit (f uid) ev p) w
  = (mkWorld (s3 w) (sent w ++ ((λ uid, mkEmit (f uid) ev p) <$> l)), inr tt).
Proof.
  revert w. induction l as [|x l IH]; intros w; simpl.
  - unfold ret. rewrite app_nil_r. by destruct w.
  - unfold bind, emit. rewrite IH. simpl. by rewrite <- app_assoc.
Qed.

(** [permission:granted] sent by a device, on a healthy bucket. *)
Lemma on_permission_granted_healthy (sd : SocketData) (data : Doc) (v u : string) (w : World) :
  healthy (s3 w) → perm_docs_wf (s3 w) →
  data_role sd = "device" → vehicleId data = JStr v → userId data = JStr u →
  on_permission_granted sd (Some data) w
  = (mkWorld (s3 (fst (run_call (Grant v u) w)))
             (sent w ++ [mkEmit ("user:" ++ u) "permission:granted"
                           (mkDoc None None (JStr v) (JStr u) None None None None)]),
     AckOk None).
Proof.
  intros Hh Hwf Hrole Hv Hu.
  unfold on_permission_granted, try_ack, bind, defined, ret, throw.
  rewrite Hrole. cbn -[updatePermission]. rewrite Hv, Hu.
  destruct (updatePermission_healthy "accepted" v u w Hh Hwf) as (veh & usr & _ & _ & ->).
  reflexivity.
Qed.

(** C9: a device's [permission:granted] for a pair that is in neither
    document (no [request] was ever made for it) succeeds on a healthy
    bucket with well-formed documents: the acknowledgement is [{ ok: true }],
    the pair is in the accepted set of the vehicle-keyed and of the
    user-keyed document and in neither pending set, and the user's room is
    sent [permission:granted]. *)
Theorem grant_without_request (sd : SocketData) (data : Doc) (v u : string) (w : World) :
  healthy (s3 w) → perm_docs_wf (s3 w) →
  data_role sd = "device" → vehicleId data = JStr v → userId data = JStr u →
  unknown (s3 w) v u →
  let r := on_permission_granted sd (Some data) w in
  snd r = AckOk None
  ∧ veh_accepted (s3 (fst r)) v u ∧ usr_accepted (s3 (fst r)) v u
  ∧ ¬ veh_pending (s3 (fst r)) v u ∧ ¬ usr_pending (s3 (fst r)) v u
  ∧ sent (fst r)
    = (sent w ++ [mkEmit ("user:" ++ u) "permission:granted"
                    (mkDoc None None (JStr v) (JStr u) None None None None)])%list.
Proof.
  intros Hh Hwf Hrole Hv Hu _. simpl.
  rewrite (on_permission_granted_healthy sd data v u w) by done.
  destruct (grant_accepts v u w Hh Hwf) as (_ & H1 & H2 & H3 & H4).
  cbn [fst snd s3 sent]. done.
Qed.

Lemma grant_without_request_witness :
  let r := on_permission_granted device_V1
             (Some (mkDoc None None (JStr "V1") (JStr "U7") None None None None)) empty_world in
  snd r = AckOk None
  ∧ veh_accepted (s3 (fst r)) "V1" "U7" ∧ usr_accepted (s3 (fst r)) "V1" "U7"
  ∧ ¬ veh_pending (s3 (fst r)) "V1" "U7" ∧ ¬ usr_pending (s3 (fst r)) "V1" "U7"
  ∧ sent (fst r)
    = (sent empty_world ++ [mkEmit ("user:" ++ "U7") "permission:granted"
                        (mkDoc None None (JStr "V1") (JStr "U7") None None None None)])%list.
Proof.
  apply (grant_without_request device_V1
           (mkDoc None None (JStr "V1") (JStr "U7") None None None None)
           "V1" "U7" empty_world empty_world_healthy empty_world_wf
           eq_refl eq_refl eq_refl (empty_world_unknown "V1" "U7")).
Defined.

(** [location:update] sent by a device, when the two writes succeed. *)
Lemma on_location_update_run (sd : SocketData) (data : Doc) (now : Z) (w : World) :
  data_role sd = "device" →
  up (s3 w) (PutObject (paths.current (vehicleId data))) = true →
  up (s3 w) (PutObject (paths.history (vehicleId data) now)) = true →
  on_location_update sd (Some data) now w
  = let payload := position_report data now in
    let w2 := stored (stored w (paths.current (vehicleId data)) payload)
                     (paths.history (vehicleId data) now) payload in
    (mkWorld (s3 w2)
       (sent w ++ (live_event payload <$>
                     default [] (accepted (read w2 (paths.vehPerm (vehicleId data)) empty_obj)))),
     AckOk None).
Proof.
  intros Hrole Hc Hh.
  unfold on_location_update, try_ack, bind, defined, ret, throw.
  rewrite Hrole. cbn -[for_of getJSON paths.history paths.current paths.vehPerm].
  unfold putJSON at 1. rewrite Hc.
  unfold putJSON at 1. cbn [s3 up]. rewrite Hh.
  rewrite getJSON_read, for_of_emit. reflexivity.
Qed.

Lemma accepted_viewers_read (w : World) (key : string) :
  up (s3 w) (GetObject key) = true →
  default [] (accepted (read w key empty_obj)) = accepted_of (s3 w) key.
Proof.
  intros Hup. unfold read, accepted_of, perm_at. rewrite Hup.
  by destruct (objects (s3 w) !! key).
Qed.

Lemma accepted_of_position_writes (w : World) (vid : jsval) (now : Z) (p q : Doc) :
  accepted_of (s3 (stored (stored w (paths.current vid) p) (paths.history vid now) q))
              (paths.vehPerm vid)
  = accepted_of (s3 w) (paths.vehPerm vid).
Proof.
  unfold accepted_of, perm_at, stored. simpl.
  rewrite lookup_insert_ne by apply history_ne_vehPerm.
  by rewrite lookup_insert_ne by apply current_ne_vehPerm.
Qed.



(** C10: what [location:update] and [permission:granted] do depends on the
    role of the sending connection and on the payload, never on the
    identity the connection is bound to: two device connections sending
    the same payload get the same world and the same acknowledgement.  So,
    on a healthy bucket, any device connection whose report names vehicle
    [v2] overwrites [v2]'s current position and adds a history record of
    [v2], and any device connection grants any user [u] access to [v2]. *)
Theorem device_identity_ignored (sd1 sd2 : SocketData) (data : option Doc) (now : Z)
    (w : World) :
  data_role sd1 = "device" → data_role sd2 = "device" →
  on_location_update sd1 data now w = on_location_update sd2 data now w
  ∧ on_permission_granted sd1 data w = on_permission_granted sd2 data w
  ∧ (∀ (d : Doc) (v2 : string),
       healthy (s3 w) → vehicleId d = JStr v2 →
       let r := on_location_update sd1 (Some d) now w in
       snd r = AckOk None
       ∧ objects (s3 (fst r)) !! paths.current (JStr v2) = Some (position_report d now)
       ∧ objects (s3 (fst r)) !! paths.history (JStr v2) now = Some (position_report d now))
  ∧ (∀ (d : Doc) (v2 u : string),
       healthy (s3 w) → perm_docs_wf (s3 w) →
       vehicleId d = JStr v2 → userId d = JStr u →
       let r := on_permission_granted sd1 (Some d) w in
       snd r = AckOk None
       ∧ veh_accepted (s3 (fst r)) v2 u ∧ usr_accepted (s3 (fst r)) v2 u).
Proof.
  intros Hr1 Hr2. split; [|split; [|split]].
  - unfold on_location_update. by rewrite Hr1, Hr2.
  - unfold on_permission_granted. by rewrite Hr1, Hr2.
  - intros d v2 Hh Hv. cbn zeta.
    rewrite (on_location_update_run sd1 d now w) by done.
    cbn [fst snd s3]. rewrite Hv. split; [done|].
    unfold stored. cbn [s3 objects].
    split; [|by rewrite lookup_insert_eq].
    destruct (decide (paths.history (JStr v2) now = paths.current (JStr v2))) as [E|E].
    + by rewrite E, lookup_insert_eq.
    + by rewrite lookup_insert_ne, lookup_insert_eq.
  - intros d v2 u Hh Hwf Hv Hu. cbn zeta.
    rewrite (on_permission_granted_healthy sd1 d v2 u w) by done.
    destruct (grant_accepts v2 u w Hh Hwf) as (_ & H1 & H2 & _).
    cbn [fst snd s3]. done.
Qed.

Lemma device_identity_ignored_witness :
  on_location_update device_V1 (Some report_V2) 1700000000000 shared_V1
  = on_location_update device_V2 (Some report_V2) 1700000000000 shared_V1
  ∧ on_permission_granted device_V1 (Some report_V2) shared_V1
    = on_permission_granted device_V2 (Some report_V2) shared_V1
  ∧ objects (s3 (fst (on_location_update device_V1 (Some report_V2) 1700000000000 shared_V1)))
      !! "vehicles/V2/current.json"
    = Some (position_report report_V2 1700000000000).
Proof.
  destruct (device_identity_ignored device_V1 device_V2 (Some report_V2)
              1700000000000 shared_V1 eq_refl eq_refl) as (H1 & H2 & H3 & _).
  split; [exact H1|]. split; [exact H2|].
  destruct (H3 report_V2 "V2") as (_ & Hcur & _); [intros op; reflexivity | reflexivity |].
  exact Hcur.
Defined.

(** ** C8: validation of the payload *)

(** A [location:request] that names no vehicle is refused through its
    acknowledgement, and nothing is written. *)
Lemma location_request_requires_vehicleId (sd : SocketData) (data : Doc) (now : Z)
    (w : World) :
  data_role sd = "user" → truthy (vehicleId data) = false →
  on_location_request sd (Some data) now w = (w, AckError (Error "vehicleId required")).
Proof.
  intros Hrole Hv. unfold on_location_request, try_ack, bind, defined, ret, throw.
  rewrite Hrole. cbn -[updatePermission]. by rewrite Hv.
Qed.

(** C8 fails on the code: a [location:update] that names no vehicle is not
    refused.  It is acknowledged with [{ ok: true }] and both position
    objects are written, under the key segment [undefined]. *)
Lemma location_update_without_vehicleId :
  let r := on_location_update device_V1 (Some report_anonymous) 1700000000000 empty_world in
  snd r = AckOk None
  ∧ objects (s3 (fst r)) !! "vehicles/undefined/current.json"
    = Some (position_report report_anonymous 1700000000000)
  ∧ objects (s3 (fst r)) !! "vehicles/undefined/history/2023/11/14/1700000000000.json"
    = Some (position_report report_anonymous 1700000000000).
Proof. vm_compute. repeat split. Qed.

(** A [permission:granted] that names no user is not refused either: the
    vehicle's document is written with a [null] entry. *)
Lemma permission_granted_without_userId :
  let r := on_permission_granted device_V1
             (Some (mkDoc None None (JStr "V1") JUndefined None None None None)) empty_world in
  snd r = AckOk None
  ∧ accepted_of (s3 (fst r)) "permissions/vehicle/V1.json" = [JNull].
Proof. vm_compute. repeat split. Qed.

(** ** C7: the handshake gate *)

Lemma auth_middleware_accepts
    (jwt_verify JSON_parse_atob : string → exn + option Payload)
    (hs : Handshake) (sd : SocketData) :
  auth_middleware jwt_verify JSON_parse_atob hs = inr sd
  ↔ ∃ p, credential_payload jwt_verify JSON_parse_atob (handshake_token hs) = Some p
         ∧ truthy (role p) = true ∧ truthy (sub p) = true ∧ sd = binding p.
Proof.
  unfold auth_middleware, binding.
  destruct (credential_payload _ _ _) as [p|]; [|split; [done | by intros (? & ? & _)]].
  destruct (truthy (role p)) eqn:Hr, (truthy (sub p)) eqn:Hs; simpl.
  - split.
    + intros H. exists p. repeat split; try done. by case_bool_decide; injection H as <-.
    + intros (p' & [= <-] & _ & _ & ->). by case_bool_decide.
  - split; [done | intros (p' & [= <-] & _ & ? & _); congruence].
  - split; [done | intros (p' & [= <-] & ? & _); congruence].
  - split; [done | intros (p' & [= <-] & ? & _); congruence].
Qed.

Lemma auth_middleware_rejects
    (jwt_verify JSON_parse_atob : string → exn + option Payload)
    (hs : Handshake) (e : exn) :
  auth_middleware jwt_verify JSON_parse_atob hs = inl e →
  e = Error "Unauthorized".
Proof.
  unfold auth_middleware.
  destruct (credential_payload _ _ _) as [p|]; [|by intros [= <-]].
  destruct (negb (truthy (role p)) || negb (truthy (sub p))); [by intros [= <-]|].
  by case_bool_decide.
Qed.

(** C7, as the code has it: the gate lets a handshake through exactly when
    its credential yields -- by signed verification or, when that gives
    nothing, by the unsigned decode -- a payload whose role and subject are
    both truthy; the role [user] binds a user, every other truthy role
    binds a device.  Any other handshake is refused with [Unauthorized]:
    the namespace is left as it was (no binding, no room, no registry
    entry), and no packet of that socket is dispatched. *)
Theorem handshake_gate
    (jwt_verify JSON_parse_atob : string → exn + option Payload)
    (hs : Handshake) (srv : Server) (sid : string) :
  (∀ sd, auth_middleware jwt_verify JSON_parse_atob hs = inr sd
         ↔ ∃ p, credential_payload jwt_verify JSON_parse_atob (handshake_token hs) = Some p
                ∧ truthy (role p) = true ∧ truthy (sub p) = true ∧ sd = binding p)
  ∧ (∀ sd, auth_middleware jwt_verify JSON_parse_atob hs = inr sd →
           step jwt_verify JSON_parse_atob srv (Connect sid hs)
           = (on_connection srv sid sd, Connected)
           ∧ (data_role sd = "user" ∨ data_role sd = "device"))
  ∧ (∀ e, auth_middleware jwt_verify JSON_parse_atob hs = inl e →
          e = Error "Unauthorized"
          ∧ step jwt_verify JSON_parse_atob srv (Connect sid hs)
            = (srv, ConnectError (Error "Unauthorized"))
          ∧ (sockets srv !! sid = None →
             ∀ ev data now,
               step jwt_verify JSON_parse_atob srv (Packet sid ev data now)
               = (srv, Silent))).
Proof.
  split; [intros sd; apply auth_middleware_accepts|]. split.
  - intros sd Hsd. simpl. rewrite Hsd. split; [done|].
    apply auth_middleware_accepts in Hsd as (p & _ & _ & _ & ->).
    unfold binding. case_bool_decide; [by left | by right].
  - intros e He. pose proof (auth_middleware_rejects _ _ _ _ He) as ->.
    split; [done|]. simpl. rewrite He. split; [done|].
    intros Hsid ev data now. by rewrite Hsid.
Qed.

(** C7, as the specification words it, fails: an unsigned credential whose
    role is [admin] is let through, and bound as a device. *)
Lemma gate_accepts_any_role :
  auth_middleware nothing_verifies parse_samples admin_handshake
  = inr (mkSocketData "device" JUndefined (JStr "X"))
  ∧ ¬ gate_as_specified nothing_verifies parse_samples admin_handshake.
Proof.
  split; [reflexivity|].
  intros [Hacc _].
  destruct Hacc as (p & Hp & _ & Hrole); [by eexists|].
  vm_compute in Hp. injection Hp as <-. simpl in Hrole.
  destruct Hrole; discriminate.
Qed.

(** ** C5, C6: the history query *)



Lemma keys_under_length (s : S3) (prefix : string) :
  (List.length (keys_under s prefix) ≤ size (objects s))%nat.
Proof.
  unfold keys_under. rewrite merge_sort_Permutation.
  etrans; [apply length_filter|].
  by rewrite <- size_dom.
Qed.

(** The pagination loop collects every page, given fuel for them. *)
Lemma list_pages_all (fuel : nat) (prefix : string) (from to : bound)
    (token : option nat) (keys : list (string * Z)) (w : World) :
  up (s3 w) (ListObjectsV2 prefix) = true →
  (List.length (keys_under (s3 w) prefix) - default 0 token < fuel * 1000)%nat →
  list_pages fuel prefix from to token keys w
  = (w, inr (keys ++ omap (match_key from to)
                       (drop (default 0%nat token) (keys_under (s3 w) prefix)))%list).
Proof.
  intros Hup. revert token keys.
  induction fuel as [|fuel IH]; intros token keys Hfuel; [lia|].
  cbn [list_pages]. unfold bind, listObjectsV2. rewrite Hup. cbn [Contents IsTruncated
    NextContinuationToken].
  set (all := keys_under (s3 w) prefix) in *.
  set (off := default 0%nat token) in *.
  assert (default [] (match take 1000 (drop off all) with
                      | [] => None
                      | _ :: _ => Some (take 1000 (drop off all))
                      end) = take 1000 (drop off all)) as ->.
  { by destruct (take 1000 (drop off all)). }
  destruct (off + 1000 <? List.length all)%nat eqn:Hlt.
  - apply Nat.ltb_lt in Hlt. rewrite IH by (simpl; lia). simpl.
    rewrite <- app_assoc, <- omap_app. do 3 f_equal.
    rewrite <- (take_drop 1000 (drop off all)) at 2.
    by rewrite drop_drop.
  - apply Nat.ltb_ge in Hlt. unfold ret.
    by rewrite take_ge by (rewrite length_drop; lia).
Qed.











(** Without an S3 failure the handler retains the last 2000 of the sorted
    matching records. *)
Lemma history_keys_healthy (v : string) (from to : bound) (w : World) :
  up (s3 w) (ListObjectsV2 (history_prefix v)) = true →
  history_keys v from to w
  = (w, inr (slice_last 2000 (sort_by_ts (matching (s3 w) v from to)))).
Proof.
  intros Hup. unfold history_keys, bind.
  rewrite list_pages_all; [done | done |].
  pose proof (keys_under_length (s3 w) (history_prefix v)). simpl. lia.
Qed.



(** The page loop never runs out of fuel: the handler either answers or
    reports an S3 failure. *)
Lemma history_keys_terminates (v : string) (from to : bound) (w : World) :
  snd (history_keys v from to w) ≠ inl OutOfFuel.
Proof.
  destruct (up (s3 w) (ListObjectsV2 (history_prefix v))) eqn:Hup.
  - by rewrite history_keys_healthy.
  - unfold history_keys, bind. cbn [list_pages]. unfold bind, listObjectsV2.
    by rewrite Hup.
Qed.
















(** The zero upper bound: [to=0] is read as no bound at all. *)
Lemma history_zero_upper_bound :
  history_keys "V1" BNull (BNum 0) doubled
  = history_keys "V1" BNull BNull doubled.
Proof. vm_compute. reflexivity. Qed.

(* ================================================================== *)
(** * Properties beyond the specification *)

(** ** The document store *)

(** X1: what [putJSON] writes, [getJSON] reads back.  After a successful
    write the call returns, a read of the same key yields the
    [JSON.parse(JSON.stringify(...))] image of the written document (the
    fallback plays no part), and that image is the document itself unless
    one of its arrays holds [undefined]; the read of every other key is what
    it was before the write; nothing is emitted. *)
Theorem put_then_get (key : string) (d fallback : Doc) (w : World) :
  up (s3 w) (PutObject key) = true →
  let w' := fst (putJSON key d w) in
  snd (putJSON key d w) = inr tt
  ∧ (up (s3 w) (GetObject key) = true →
     getJSON key fallback w' = (w', inr (json_roundtrip d)))
  ∧ (JUndefined ∉ default [] (pending d) → JUndefined ∉ default [] (accepted d) →
     json_roundtrip d = d)
  ∧ (∀ k, k ≠ key → getJSON k fallback w' = (w', inr (read w k fallback)))
  ∧ sent w' = sent w.
Proof.
  intros Hput. unfold putJSON. rewrite Hput. cbn [fst snd].
  split; [done|]. split; [|split; [|split; [|done]]].
  - intros Hget. unfold getJSON. cbn [s3 up objects]. by rewrite Hget, lookup_insert_eq.
  - intros Hp Ha. destruct d as [p a vid uid la ln sp t]. unfold json_roundtrip. simpl in *.
    f_equal.
    + destruct p as [p|]; [|done]. simpl in *. f_equal.
      induction p as [|x p IH]; [done|]. apply not_elem_of_cons in Hp as [Hx Hp].
      simpl. f_equal; [by destruct x | by apply IH].
    + destruct a as [a|]; [|done]. simpl in *. f_equal.
      induction a as [|x a IH]; [done|]. apply not_elem_of_cons in Ha as [Hx Ha].
      simpl. f_equal; [by destruct x | by apply IH].
  - intros k Hk. rewrite getJSON_read. f_equal. f_equal.
    unfold read. cbn [s3 up objects]. by rewrite lookup_insert_ne.
Qed.

Lemma put_then_get_witness :
  getJSON "vehicles/V1/current.json" empty_obj
    (fst (putJSON "vehicles/V1/current.json" report_V1 empty_world))
  = (fst (putJSON "vehicles/V1/current.json" report_V1 empty_world), inr report_V1).
Proof.
  destruct (put_then_get "vehicles/V1/current.json" report_V1 empty_obj empty_world eq_refl)
    as (_ & Hget & _).
  exact (Hget eq_refl).
Defined.

(** ** The permission state machine, whatever the bucket does *)

(** X2: [updatePermission] touches the two permission documents of its
    pair and nothing else: whatever the status, the identifiers and the
    failures of the bucket, every other object is as it was, nothing is
    emitted, and the fault oracle is untouched. *)
Theorem updatePermission_frame (vid uid : jsval) (status : string) (w : World) :
  let w' := fst (updatePermission vid uid status w) in
  sent w' = sent w
  ∧ up (s3 w') = up (s3 w)
  ∧ ∀ k, k ≠ paths.vehPerm vid → k ≠ paths.userPerm uid →
         objects (s3 w') !! k = objects (s3 w) !! k.
Proof.
  cbn zeta. rewrite updatePermission_run.
  destruct (mutate1 status uid _) as [veh|]; [|done].
  destruct (mutate1 status vid _) as [usr|]; [|done].
  destruct (up (s3 w) (PutObject (paths.vehPerm vid))); [|done].
  destruct (up (s3 w) (PutObject (paths.userPerm uid))); cbn [fst stored s3 sent up objects];
    (split; [done|]); (split; [done|]); intros k Hv Hu;
    by rewrite !lookup_insert_ne.
Qed.












(** X4: a [request] for a pair that is already accepted does not fail and
    is not ignored: on a healthy bucket with well-formed documents the call
    returns, and afterwards the pair is pending and accepted at once, in
    the vehicle-keyed and in the user-keyed document. *)
Theorem request_on_accepted_pair (v u : string) (w : World) :
  healthy (s3 w) → perm_docs_wf (s3 w) →
  veh_accepted (s3 w) v u → usr_accepted (s3 w) v u →
  let r := run_call (Request v u) w in
  returned (snd r) = true
  ∧ veh_pending (s3 (fst r)) v u ∧ veh_accepted (s3 (fst r)) v u
  ∧ usr_pending (s3 (fst r)) v u ∧ usr_accepted (s3 (fst r)) v u.
Proof.
  intros Hh Hwf Hva Hua. simpl.
  destruct (request_effect v u w Hh Hwf) as (Hr & _ & _ & Heff).
  destruct (Heff v u) as (E1 & E2 & E3 & E4). rewrite E1, E2, E3, E4. tauto.
Qed.

Lemma shared_V1_healthy : healthy (s3 shared_V1).
Proof. intros op. reflexivity. Defined.

Lemma shared_V1_wf : perm_docs_wf (s3 shared_V1).
Proof.
  intros id d [H|H]; unfold shared_V1 in H; cbn [s3 objects] in H.
  - apply lookup_insert_Some in H as [[_ <-]|[_ H]]; [split; by eexists|].
    apply lookup_insert_Some in H as [[_ <-]|[_ H]]; [split; by eexists|].
    by rewrite lookup_empty in H.
  - apply lookup_insert_Some in H as [[_ <-]|[_ H]]; [split; by eexists|].
    apply lookup_insert_Some in H as [[_ <-]|[_ H]]; [split; by eexists|].
    by rewrite lookup_empty in H.
Defined.

Lemma shared_V1_accepted :
  veh_accepted (s3 shared_V1) "V1" "U1" ∧ usr_accepted (s3 shared_V1) "V1" "U1".
Proof. split; vm_compute; apply list_elem_of_here. Defined.

Lemma request_on_accepted_pair_witness :
  let r := run_call (Request "V1" "U1") shared_V1 in
  returned (snd r) = true
  ∧ veh_pending (s3 (fst r)) "V1" "U1" ∧ veh_accepted (s3 (fst r)) "V1" "U1"
  ∧ usr_pending (s3 (fst r)) "V1" "U1" ∧ usr_accepted (s3 (fst r)) "V1" "U1".
Proof.
  apply (request_on_accepted_pair "V1" "U1" shared_V1 shared_V1_healthy shared_V1_wf
           (proj1 shared_V1_accepted) (proj2 shared_V1_accepted)).
Defined.

(** ** [location:request] *)

(** [location:request] sent by a user, on a healthy bucket. *)
Lemma on_location_request_healthy (sd : SocketData) (data : Doc) (v u : string) (now : Z)
    (w : World) :
  healthy (s3 w) → perm_docs_wf (s3 w) →
  data_role sd = "user" → data_userId sd = JStr u →
  vehicleId data = JStr v → v ≠ "" →
  on_location_request sd (Some data) now w
  = (mkWorld (s3 (fst (run_call (Request v u) w)))
             (sent w ++ [mkEmit ("vehicle:" ++ v) "user:locationPermission"
                           (mkDoc None None (JStr v) (JStr u) None None None (Some now))]),
     AckOk (Some "Permission request sent")).
Proof.
  intros Hh Hwf Hrole Hu Hv Hne.
  unfold on_location_request, try_ack, bind, defined, ret, throw.
  rewrite Hrole. cbn -[updatePermission]. rewrite Hv, Hu. cbn -[updatePermission].
  assert (String.eqb v "" = false) as -> by (by apply String.eqb_neq).
  cbn -[updatePermission].
  destruct (updatePermission_healthy "pending" v u w Hh Hwf) as (veh & usr & _ & _ & ->).
  reflexivity.
Qed.

(** X5: a [location:request] from a user-role connection that names
    vehicle [v], on a healthy bucket with well-formed documents, is
    acknowledged with [{ ok: true, msg: "Permission request sent" }]; the
    pair is then pending in both documents; and exactly one event is
    pushed, [user:locationPermission] to the room [vehicle:v], carrying the
    vehicle, the user the gate bound the connection to, and the server's
    clock.  Nothing else of the payload matters: a [userId] the client puts
    in it is ignored. *)
Theorem location_request_records_and_notifies (sd : SocketData) (data : Doc)
    (v u : string) (now : Z) (w : World) :
  healthy (s3 w) → perm_docs_wf (s3 w) →
  data_role sd = "user" → data_userId sd = JStr u →
  vehicleId data = JStr v → v ≠ "" →
  let r := on_location_request sd (Some data) now w in
  snd r = AckOk (Some "Permission request sent")
  ∧ veh_pending (s3 (fst r)) v u ∧ usr_pending (s3 (fst r)) v u
  ∧ pushed w (fst r)
    = [mkEmit ("vehicle:" ++ v) "user:locationPermission"
         (mkDoc None None (JStr v) (JStr u) None None None (Some now))]
  ∧ (∀ data', vehicleId data' = vehicleId data →
       on_location_request sd (Some data') now w = r).
Proof.
  intros Hh Hwf Hrole Hu Hv Hne. cbn zeta.
  rewrite (on_location_request_healthy sd data v u now w) by done.
  destruct (request_effect v u w Hh Hwf) as (_ & _ & _ & Heff).
  destruct (Heff v u) as (E1 & E2 & _).
  cbn [fst snd s3 sent]. split; [done|].
  split; [apply E1; by left|]. split; [apply E2; by left|].
  split; [unfold pushed; cbn [sent]; by rewrite drop_app_length|].
  intros data' Hd. rewrite Hv in Hd.
  by rewrite (on_location_request_healthy sd data' v u now w).
Qed.

Lemma location_request_records_and_notifies_witness :
  let r := on_location_request user_U1 (Some request_V1) 1700000000000 empty_world in
  snd r = AckOk (Some "Permission request sent")
  ∧ pushed empty_world (fst r)
    = [mkEmit "vehicle:V1" "user:locationPermission"
         (mkDoc None None (JStr "V1") (JStr "U1") None None None (Some 1700000000000))].
Proof.
  destruct (location_request_records_and_notifies user_U1 request_V1 "V1" "U1"
              1700000000000 empty_world empty_world_healthy empty_world_wf
              eq_refl eq_refl eq_refl ltac:(discriminate))
    as (Hack & _ & _ & Hpushed & _).
  split; [exact Hack | exact Hpushed].
Defined.

(** X6: the two writes of [updatePermission] are not atomic.  When the
    write of the user's document is the one call that fails, a
    [location:request] is answered [{ ok: false }] and the device is not
    notified, yet the vehicle's document has been written: the user is
    pending there and not in the user's own document, so the two documents
    no longer mirror each other. *)
Theorem request_half_written (sd : SocketData) (data : Doc) (v u : string) (now : Z)
    (w : World) :
  perm_docs_wf (s3 w) →
  (∀ op, op ≠ PutObject (paths.userPerm (JStr u)) → up (s3 w) op = true) →
  up (s3 w) (PutObject (paths.userPerm (JStr u))) = false →
  data_role sd = "user" → data_userId sd = JStr u →
  vehicleId data = JStr v → v ≠ "" →
  ¬ usr_pending (s3 w) v u →
  let r := on_location_request sd (Some data) now w in
  snd r = AckError S3Error
  ∧ pushed w (fst r) = []
  ∧ veh_pending (s3 (fst r)) v u
  ∧ ¬ usr_pending (s3 (fst r)) v u
  ∧ ¬ symmetric (s3 (fst r)).
Proof.
  intros Hwf Hup Hdown Hrole Hu Hv Hne Hnot. cbn zeta.
  destruct (perm_at_wf _ (JStr v) Hwf) as [Hpv _].
  destruct (perm_at_wf _ (JStr u) Hwf) as [_ Hpu].
  destruct (mutate1_defined "pending" (JStr u) _ Hpv) as [veh Hveh].
  destruct (mutate1_defined "pending" (JStr v) _ Hpu) as [usr Husr].
  assert (on_location_request sd (Some data) now w
          = (stored w (paths.vehPerm (JStr v)) veh, AckError S3Error)) as ->.
  { unfold on_location_request, try_ack, bind, defined, ret, throw.
    rewrite Hrole. cbn -[updatePermission]. rewrite Hv, Hu. cbn -[updatePermission].
    assert (String.eqb v "" = false) as -> by (by apply String.eqb_neq).
    cbn -[updatePermission]. rewrite updatePermission_run.
    unfold read. rewrite !Hup by done. fold (perm_at (s3 w) (paths.vehPerm (JStr v))).
    fold (perm_at (s3 w) (paths.userPerm (JStr u))).
    by rewrite Hveh, Husr, Hdown. }
  cbn [fst snd].
  assert (veh_pending (s3 (stored w (paths.vehPerm (JStr v)) veh)) v u) as Hvp.
  { unfold veh_pending, pending_of, perm_at, stored. cbn [s3 objects].
    rewrite lookup_insert_eq. cbn [default].
    apply (mutate1_pending_mem u u _ _ Hveh). by left. }
  assert (¬ usr_pending (s3 (stored w (paths.vehPerm (JStr v)) veh)) v u) as Hup'.
  { unfold usr_pending, pending_of, perm_at, stored in *. cbn [s3 objects].
    by rewrite lookup_insert_ne by apply vehPerm_ne_userPerm. }
  split; [done|]. split; [unfold pushed, stored; cbn [sent]; by rewrite drop_all|].
  split; [done|]. split; [done|].
  intros Hsym. destruct (Hsym v u) as [Hiff _]. by apply Hup', Hiff.
Qed.

Lemma user_write_fails_wf : perm_docs_wf (s3 user_write_fails).
Proof. intros id d [H|H]; simpl in H; rewrite lookup_empty in H; discriminate. Defined.

Lemma user_write_fails_up (op : s3op) :
  op ≠ PutObject (paths.userPerm (JStr "U1")) → up (s3 user_write_fails) op = true.
Proof. intros Hop. simpl. by rewrite bool_decide_eq_false_2. Defined.

Lemma user_write_fails_unknown : ¬ usr_pending (s3 user_write_fails) "V1" "U1".
Proof. vm_compute. apply not_elem_of_nil. Defined.

Lemma request_half_written_witness :
  let r := on_location_request user_U1 (Some request_V1) 1700000000000 user_write_fails in
  snd r = AckError S3Error
  ∧ pushed user_write_fails (fst r) = []
  ∧ veh_pending (s3 (fst r)) "V1" "U1"
  ∧ ¬ usr_pending (s3 (fst r)) "V1" "U1"
  ∧ ¬ symmetric (s3 (fst r)).
Proof.
  apply (request_half_written user_U1 request_V1 "V1" "U1" 1700000000000 user_write_fails
           user_write_fails_wf user_write_fails_up eq_refl eq_refl eq_refl eq_refl
           ltac:(discriminate) user_write_fails_unknown).
Defined.

(** ** The permission endpoints *)

(** X7: the two permission endpoints read back what [updatePermission]
    wrote.  After a call on a healthy bucket with well-formed documents,
    [GET /api/vehicle/v/permissions] answers with the vehicle document and
    [GET /api/user/u/permissions] with the user document the call
    returned, as JSON reads them; the arrays of the answers are the
    pending and accepted sets of the pair's two documents. *)
Theorem permission_endpoints_reflect_call (status v u : string) (w : World) :
  healthy (s3 w) → perm_docs_wf (s3 w) →
  ∃ veh usr w',
    updatePermission (JStr v) (JStr u) status w = (w', inr (veh, usr))
    ∧ get_vehicle_permissions v w' = (w', inr (json_roundtrip veh))
    ∧ get_user_permissions u w' = (w', inr (json_roundtrip usr))
    ∧ (∀ x : string,
         (JStr x ∈ default [] (pending (json_roundtrip veh)) ↔ veh_pending (s3 w') v x)
         ∧ (JStr x ∈ default [] (accepted (json_roundtrip veh)) ↔ veh_accepted (s3 w') v x)
         ∧ (JStr x ∈ default [] (pending (json_roundtrip usr)) ↔ usr_pending (s3 w') x u)
         ∧ (JStr x ∈ default [] (accepted (json_roundtrip usr)) ↔ usr_accepted (s3 w') x u)).
Proof.
  intros Hh Hwf.
  destruct (updatePermission_healthy status v u w Hh Hwf) as (veh & usr & _ & _ & E).
  eexists veh, usr, _. split; [exact E|].
  pose proof (vehPerm_ne_userPerm (JStr v) (JStr u)) as Hne.
  unfold get_vehicle_permissions, get_user_permissions. rewrite !getJSON_read.
  unfold read, stored. cbn [s3 up objects]. rewrite !Hh.
  rewrite lookup_insert_eq, lookup_insert_ne, lookup_insert_eq by done. cbn [default].
  split; [done|]. split; [done|]. intros x.
  unfold veh_pending, veh_accepted, usr_pending, usr_accepted, pending_of, accepted_of,
    perm_at. cbn [s3 objects].
  by rewrite lookup_insert_eq, lookup_insert_ne, lookup_insert_eq by done.
Qed.

Lemma permission_endpoints_reflect_call_witness :
  ∃ veh usr w',
    updatePermission (JStr "V1") (JStr "U1") "accepted" empty_world = (w', inr (veh, usr))
    ∧ get_vehicle_permissions "V1" w' = (w', inr (json_roundtrip veh))
    ∧ get_user_permissions "U1" w' = (w', inr (json_roundtrip usr)).
Proof.
  destruct (permission_endpoints_reflect_call "accepted" "V1" "U1" empty_world
              empty_world_healthy empty_world_wf)
    as (veh & usr & w' & H1 & H2 & H3 & _).
  exists veh, usr, w'. split; [exact H1|]. split; [exact H2 | exact H3].
Defined.

(** ** History keys *)

Lemma list_ascii_app (a b : string) :
  list_ascii_of_string (a ++ b) = (list_ascii_of_string a ++ list_ascii_of_string b)%list.
Proof.
  induction a as [|c a IH]; [done|].
  change (String c a ++ b) with (String c (a ++ b)). simpl. by rewrite IH.
Qed.

Lemma strip_prefix_app (p l : list ascii) : strip_prefix p (p ++ l) = Some l.
Proof.
  induction p as [|c p IH]; [done|]. simpl. by rewrite Ascii.eqb_refl.
Qed.

Lemma take_digits_app (ds rest : list ascii) (c : ascii) :
  Forall (λ x, is_digit x = true) ds → is_digit c = false →
  take_digits (ds ++ c :: rest) = ds.
Proof.
  intros Hds Hc. induction Hds as [|d ds Hd _ IH]; simpl.
  - by rewrite Hc.
  - by rewrite Hd, IH.
Qed.

(** A key of the shape [<anything>/<digits>.json] carries the value of its
    digits. *)
Lemma key_ts_shape (p : string) (ds : list ascii) :
  ds ≠ [] → Forall (λ x, is_digit x = true) ds →
  key_ts (p ++ "/" ++ string_of_list_ascii ds ++ ".json") = Some (Number_digits ds).
Proof.
  intros Hne Hds. unfold key_ts.
  rewrite !list_ascii_app, list_ascii_of_string_of_list_ascii.
  rewrite !rev_app_distr, <- !app_assoc.
  rewrite strip_prefix_app.
  change (rev (list_ascii_of_string "/")) with ["/"%char]. cbn [app].
  rewrite take_digits_app; [|by apply Forall_rev|done].
  rewrite rev_involutive.
  destruct (rev ds) as [|a l] eqn:E.
  - apply (f_equal (@rev _)) in E. rewrite rev_involutive in E. done.
  - by rewrite drop_app_length.
Qed.

Lemma uint_chars_digits (d : Decimal.uint) :
  Forall (λ x, is_digit x = true) (uint_chars d).
Proof. unfold uint_chars. induction d; simpl; by constructor. Qed.

Lemma fold_uint_acc (d : Decimal.uint) (acc : positive) :
  fold_left (λ acc c, 10 * acc + (Z.of_nat (nat_of_ascii c) - 48)) (uint_chars d) (Z.pos acc)
  = Z.pos (Pos.of_uint_acc d acc).
Proof.
  unfold uint_chars. revert acc. induction d; intros acc; simpl; [done|..];
    rewrite <- IHd; f_equal;
    match goal with
    | |- context [nat_of_ascii ?c] =>
        let n := eval vm_compute in (nat_of_ascii c) in
        change (nat_of_ascii c) with n
    end; lia.
Qed.

Lemma Number_digits_uint (d : Decimal.uint) :
  Number_digits (uint_chars d) = Z.of_N (Pos.of_uint d).
Proof.
  unfold Number_digits. induction d; simpl; [done|exact IHd|..];
    unfold uint_chars; simpl; fold (uint_chars d); by rewrite <- fold_uint_acc.
Qed.

(** [String(n)] of a non-negative integer is a non-empty run of digits
    whose value is [n]. *)
Lemma dec_digits (n : Z) :
  0 ≤ n →
  list_ascii_of_string (dec n) ≠ []
  ∧ Forall (λ x, is_digit x = true) (list_ascii_of_string (dec n))
  ∧ Number_digits (list_ascii_of_string (dec n)) = n.
Proof.
  intros Hn. unfold dec. destruct n as [|p|p]; [by repeat constructor| |lia].
  simpl. pose proof (Unsigned.to_uint_nonnil p) as Hnil.
  assert (NilZero.string_of_uint (Pos.to_uint p)
          = NilEmpty.string_of_uint (Pos.to_uint p)) as ->
    by (by destruct (Pos.to_uint p)).
  fold (uint_chars (Pos.to_uint p)).
  split; [|split].
  - unfold uint_chars. by destruct (Pos.to_uint p).
  - apply uint_chars_digits.
  - by rewrite Number_digits_uint, Unsigned.of_to.
Qed.

Lemma append_assoc (a b c : string) : (a ++ b) ++ c = a ++ b ++ c.
Proof.
  induction a as [|x a IH]; [done|].
  change ((String x a ++ b) ++ c) with (String x ((a ++ b) ++ c)). by rewrite IH.
Qed.

Lemma prefix_self_app (a r : string) : String.prefix a (a ++ r) = true.
Proof.
  induction a as [|x a IH]; [change ("" ++ r) with r; by destruct r|].
  change (String x a ++ r) with (String x (a ++ r)). simpl.
  by destruct (ascii_dec x x).
Qed.


Lemma history_key_shape (v : jsval) (t : Z) :
  ∃ p, paths.history v t = p ++ "/" ++ dec t ++ ".json"
       ∧ (∀ s, v = JStr s → String.prefix (history_prefix s) p = true).
Proof.
  unfold paths.history. destruct (civil t) as [[y m] d].
  exists ("vehicles/" ++ to_str v ++ "/history/" ++ dec y ++ "/" ++
          padStart2 (dec m) ++ "/" ++ padStart2 (dec d)).
  split; [by rewrite !append_assoc|].
  intros s ->. unfold history_prefix. cbn [to_str].
  rewrite <- (append_assoc s).
  rewrite <- (append_assoc "vehicles/" (s ++ "/history/")).
  apply prefix_self_app.
Qed.

Lemma key_ts_history (v : jsval) (t : Z) :
  0 ≤ t → key_ts (paths.history v t) = Some t.
Proof.
  intros Ht. destruct (history_key_shape v t) as (p & -> & _).
  destruct (dec_digits t Ht) as (Hne & Hds & Hval).
  rewrite <- (string_of_list_ascii_of_string (dec t)).
  rewrite key_ts_shape by done. by rewrite Hval.
Qed.


Lemma key_ts_current (v : jsval) : key_ts (paths.current v) = None.
Proof.
  unfold key_ts, paths.current.
  rewrite !list_ascii_app, !rev_app_distr, <- !app_assoc.
  change (list_ascii_of_string "/current.json")
    with (list_ascii_of_string "/current" ++ list_ascii_of_string ".json")%list.
  rewrite rev_app_distr, <- !app_assoc, strip_prefix_app. done.
Qed.

Lemma history_key_inj (v v' : string) (t t' : Z) :
  0 ≤ t → 0 ≤ t' →
  paths.history (JStr v) t = paths.history (JStr v') t' → v = v' ∧ t = t'.
Proof.
  intros Ht Ht' E.
  assert (t = t') as <-.
  { apply (f_equal key_ts) in E. rewrite !key_ts_history in E by done. by injection E. }
  split; [|done]. unfold paths.history in E. destruct (civil t) as [[y m] d].
  cbn [to_str] in E. apply (inj (String.append _)) in E.
  rewrite <- (append_assoc v "/history/"), <- (append_assoc v' "/history/") in E.
  by do 2 apply append_inj_r in E.
Qed.



(** ** [location:update], whatever the bucket does *)

Lemma current_ne_history (v : jsval) (t : Z) : paths.current v ≠ paths.history v t.
Proof.
  unfold paths.current, paths.history. destruct (civil t) as [[??]?]. intros E.
  do 2 apply (inj (String.append _)) in E. discriminate.
Qed.

Lemma current_ne_any_history (v v' : jsval) (t : Z) :
  0 ≤ t → paths.current v ≠ paths.history v' t.
Proof.
  intros Ht E. apply (f_equal key_ts) in E.
  by rewrite key_ts_current, key_ts_history in E.
Qed.

Lemma position_keys_ne_perm (vid id : jsval) (now : Z) :
  paths.vehPerm id ≠ paths.current vid
  ∧ paths.vehPerm id ≠ paths.history vid now
  ∧ paths.userPerm id ≠ paths.current vid
  ∧ paths.userPerm id ≠ paths.history vid now.
Proof.
  split; [|split; [|split]].
  - intros E. by apply (current_ne_vehPerm vid id).
  - intros E. by apply (history_ne_vehPerm vid id now).
  - unfold paths.userPerm, paths.current. discriminate.
  - unfold paths.userPerm, paths.history. destruct (civil now) as [[??]?]. discriminate.
Qed.

Lemma on_location_update_refused (sd : SocketData) (data : option Doc) (now : Z) (w : World) :
  data_role sd ≠ "device" →
  on_location_update sd data now w = (w, AckError (Error "Only devices can send")).
Proof.
  intros Hrole. unfold on_location_update, try_ack, bind, throw.
  apply String.eqb_neq in Hrole. by rewrite Hrole.
Qed.

(** [location:update] sent by a device, the three ways the writes can go. *)
Lemma on_location_update_cases (sd : SocketData) (data : Doc) (now : Z) (w : World) :
  data_role sd = "device" →
  let payload := position_report data now in
  let cur := paths.current (vehicleId data) in
  let hist := paths.history (vehicleId data) now in
  on_location_update sd (Some data) now w
  = if up (s3 w) (PutObject cur) then
      if up (s3 w) (PutObject hist) then
        let w2 := stored (stored w cur payload) hist payload in
        (mkWorld (s3 w2)
           (sent w ++ (live_event payload <$>
              default [] (accepted (read w2 (paths.vehPerm (vehicleId data)) empty_obj)))),
         AckOk None)
      else (stored w cur payload, AckError S3Error)
    else (w, AckError S3Error).
Proof.
  intros Hrole. cbn zeta.
  destruct (up (s3 w) (PutObject (paths.current (vehicleId data)))) eqn:Hc.
  - destruct (up (s3 w) (PutObject (paths.history (vehicleId data) now))) eqn:Hh.
    + by rewrite on_location_update_run.
    + unfold on_location_update, try_ack, bind, defined, ret, throw.
      rewrite Hrole. cbn -[for_of getJSON paths.history paths.current paths.vehPerm].
      unfold putJSON at 1. rewrite Hc.
      unfold putJSON at 1. cbn [s3 up]. by rewrite Hh.
  - unfold on_location_update, try_ack, bind, defined, ret, throw.
    rewrite Hrole. cbn -[for_of getJSON paths.history paths.current paths.vehPerm].
    unfold putJSON at 1. by rewrite Hc.
Qed.

Lemma pushed_app (w : World) (s : S3) (new : list Emit) :
  pushed w (mkWorld s (sent w ++ new)) = new.
Proof. unfold pushed. cbn [sent]. by rewrite drop_app_length. Qed.

Lemma pushed_none (w w' : World) : sent w' = sent w → pushed w w' = [].
Proof. intros E. unfold pushed. by rewrite E, drop_all. Qed.

Lemma location_update_effect (sd : SocketData) (data : Doc) (now : Z) (w : World) :
  let w' := fst (on_location_update sd (Some data) now w) in
  (∀ k, k ≠ paths.current (vehicleId data) → k ≠ paths.history (vehicleId data) now →
        objects (s3 w') !! k = objects (s3 w) !! k)
  ∧ up (s3 w') = up (s3 w)
  ∧ (∃ viewers, pushed w w' = live_event (position_report data now) <$> viewers)
  ∧ sent w' = (sent w ++ pushed w w')%list.
Proof.
  cbn zeta. destruct (decide (data_role sd = "device")) as [Hrole|Hrole].
  - rewrite on_location_update_cases by done. cbn zeta.
    destruct (up (s3 w) (PutObject (paths.current _))) eqn:Hc;
      [destruct (up (s3 w) (PutObject (paths.history _ _))) eqn:Hh|]; cbn [fst].
    + rewrite pushed_app. cbn [s3 sent objects up stored].
      split; [intros k Hk1 Hk2; by rewrite !lookup_insert_ne|].
      split; [done|]. split; [by eexists | done].
    + rewrite pushed_none by done. cbn [s3 sent objects up stored].
      split; [intros k Hk1 Hk2; by rewrite !lookup_insert_ne|].
      split; [done|]. split; [by exists [] | by rewrite app_nil_r].
    + rewrite pushed_none by done.
      split; [done|]. split; [done|]. split; [by exists [] | by rewrite app_nil_r].
  - rewrite on_location_update_refused by done. cbn [fst]. rewrite pushed_none by done.
    split; [done|]. split; [done|]. split; [by exists [] | by rewrite app_nil_r].
Qed.

(** X9: a [location:update] touches the two position objects of the
    vehicle its payload names, and nothing else.  Whatever the role of the
    sender and whichever calls fail, every other object of the bucket --
    every permission document among them -- is as it was; and what the
    handler pushes is [location:live] events only, each carrying the report
    with the server's timestamp. *)
Theorem location_update_frame (sd : SocketData) (data : Doc) (now : Z) (w : World) :
  let w' := fst (on_location_update sd (Some data) now w) in
  (∀ k, k ≠ paths.current (vehicleId data) → k ≠ paths.history (vehicleId data) now →
        objects (s3 w') !! k = objects (s3 w) !! k)
  ∧ (∀ id, objects (s3 w') !! paths.vehPerm id = objects (s3 w) !! paths.vehPerm id
           ∧ objects (s3 w') !! paths.userPerm id = objects (s3 w) !! paths.userPerm id)
  ∧ up (s3 w') = up (s3 w)
  ∧ (∀ e, e ∈ pushed w w' → event e = "location:live" ∧ body e = position_report data now)
  ∧ sent w' = (sent w ++ pushed w w')%list.
Proof.
  cbn zeta.
  destruct (location_update_effect sd data now w) as (Hsame & Hup & (viewers & Hp) & Hsent).
  split; [exact Hsame|]. split; [|split; [exact Hup|split; [|exact Hsent]]].
  - intros id. destruct (position_keys_ne_perm (vehicleId data) id now) as (N1 & N2 & N3 & N4).
    split; by apply Hsame.
  - intros e. rewrite Hp. by intros (uid & -> & _)%list_elem_of_fmap.
Qed.

(** X10: the two writes of a [location:update] are not atomic, and a
    failed read is silent.  For a device-role sender: when the write of the
    current position fails nothing changes and the acknowledgement is
    [{ ok: false }]; when that write succeeds and the write of the history
    record fails, the current position has been overwritten, no history
    record is added, nothing is pushed, and the acknowledgement is
    [{ ok: false }]; and when both writes succeed but the read of the
    permission document fails, the acknowledgement is [{ ok: true }] though
    no viewer is sent the position. *)
Theorem location_update_write_failures (sd : SocketData) (data : Doc) (now : Z) (w : World) :
  data_role sd = "device" →
  let payload := position_report data now in
  let cur := paths.current (vehicleId data) in
  let hist := paths.history (vehicleId data) now in
  let r := on_location_update sd (Some data) now w in
  (up (s3 w) (PutObject cur) = false → r = (w, AckError S3Error))
  ∧ (up (s3 w) (PutObject cur) = true → up (s3 w) (PutObject hist) = false →
     r = (stored w cur payload, AckError S3Error)
     ∧ objects (s3 (fst r)) !! cur = Some payload
     ∧ objects (s3 (fst r)) !! hist = objects (s3 w) !! hist
     ∧ pushed w (fst r) = [])
  ∧ (up (s3 w) (PutObject cur) = true → up (s3 w) (PutObject hist) = true →
     up (s3 w) (GetObject (paths.vehPerm (vehicleId data))) = false →
     snd r = AckOk None ∧ pushed w (fst r) = []).
Proof.
  intros Hrole. cbn zeta. rewrite on_location_update_cases by done. cbn zeta.
  split; [by intros ->|]. split.
  - intros -> ->. split; [done|]. cbn [fst stored s3 objects sent].
    split; [by rewrite lookup_insert_eq|]. split.
    + apply lookup_insert_ne, current_ne_history.
    + by apply pushed_none.
  - intros -> -> Hg. cbn [fst snd]. split; [done|].
    unfold read, stored. cbn [sent s3 up]. rewrite Hg. cbn [accepted empty_obj default fmap].
    rewrite pushed_app. done.
Qed.

Lemma location_update_write_failures_witness :
  let w := mkWorld (mkS3 ∅ (λ op, bool_decide (op = PutObject "vehicles/V1/current.json"))) [] in
  let r := on_location_update device_V1 (Some report_V1) 1700000000000 w in
  snd r = AckError S3Error
  ∧ objects (s3 (fst r)) !! "vehicles/V1/current.json"
    = Some (position_report report_V1 1700000000000)
  ∧ objects (s3 (fst r)) !! "vehicles/V1/history/2023/11/14/1700000000000.json" = None
  ∧ pushed w (fst r) = [].
Proof.
  cbn zeta.
  destruct (location_update_write_failures device_V1 report_V1 1700000000000
              (mkWorld (mkS3 ∅ (λ op, bool_decide (op = PutObject "vehicles/V1/current.json")))
                       []) eq_refl) as (_ & Hhalf & _).
  destruct (Hhalf eq_refl eq_refl) as (Hr & Hcur & Hhist & Hpushed).
  split; [by rewrite Hr|]. split; [exact Hcur|]. split; [exact Hhist | exact Hpushed].
Defined.

(** X11: history records are only ever added.  A [location:update] for
    vehicle [v0] stamped [now] leaves every history record of another
    vehicle, and every record of [v0] with another timestamp, as it was:
    the only record a report can overwrite is one of the same vehicle and
    the same millisecond. *)
Theorem history_is_append_only (sd : SocketData) (data : Doc) (v0 v : string) (now t : Z)
    (w : World) :
  vehicleId data = JStr v0 → 0 ≤ now → 0 ≤ t → (v, t) ≠ (v0, now) →
  objects (s3 (fst (on_location_update sd (Some data) now w))) !! paths.history (JStr v) t
  = objects (s3 w) !! paths.history (JStr v) t.
Proof.
  intros Hv Hnow Ht Hne.
  destruct (location_update_effect sd data now w) as (Hsame & _).
  apply Hsame; rewrite Hv.
  - intros E. symmetry in E. by apply current_ne_any_history in E.
  - intros E. apply history_key_inj in E as [-> ->]; done.
Qed.

Lemma history_is_append_only_witness :
  objects (s3 (fst (on_location_update device_V1 (Some report_V1) 1700000000001 doubled)))
    !! paths.history (JStr "V1") 1700000000000
  = objects (s3 doubled) !! paths.history (JStr "V1") 1700000000000.
Proof.
  apply (history_is_append_only device_V1 report_V1 "V1" "V1" 1700000000001 1700000000000
           doubled eq_refl ltac:(lia) ltac:(lia) ltac:(discriminate)).
Defined.

(** ** From a report to the history query *)







(** ** Failures of the history query *)






(** ** Bounds that count as absent *)

Lemma match_key_ext (from to from' to' : bound) (k : string) :
  (∀ t, in_bounds from to t = in_bounds from' to' t) →
  match_key from to k = match_key from' to' k.
Proof. intros Hext. unfold match_key. destruct (key_ts k); [|done]. by rewrite Hext. Qed.

Lemma list_pages_ext (fuel : nat) (prefix : string) (from to from' to' : bound)
    (token : option nat) (keys : list (string * Z)) (w : World) :
  (∀ t, in_bounds from to t = in_bounds from' to' t) →
  list_pages fuel prefix from to token keys w
  = list_pages fuel prefix from' to' token keys w.
Proof.
  intros Hext. revert token keys.
  induction fuel as [|fuel IH]; intros token keys; [done|].
  cbn [list_pages]. unfold bind, listObjectsV2.
  destruct (up (s3 w) (ListObjectsV2 prefix)); [|done].
  cbn [Contents IsTruncated NextContinuationToken].
  match goal with
  | |- context [omap (match_key from to) ?l] =>
      assert (omap (match_key from to) l = omap (match_key from' to') l) as ->
  end.
  { apply list_omap_ext, Forall2_same_length_lookup_2; [done|].
    intros i k k' Hk Hk'. assert (k = k') as -> by congruence. by apply match_key_ext. }
  destruct (_ <? _)%nat; [apply IH | done].
Qed.

Lemma history_ext (v : string) (from to from' to' : bound) (w : World) :
  (∀ t, in_bounds from to t = in_bounds from' to' t) →
  history v from to w = history v from' to' w.
Proof.
  intros Hext. unfold history, history_keys, bind.
  by rewrite (list_pages_ext _ _ from to from' to').
Qed.

(** X14: a bound that is falsy is no bound.  Whatever [Number] makes of
    the query text, a [from] or [to] that comes out as zero or as [NaN]
    (as does an empty parameter) gives the same response as leaving the
    parameter out: [from=0] and [to=0] restrict nothing, and neither does
    text that is no number. *)
Theorem falsy_bound_is_absent (Number : string → bound) (v : string)
    (q other : option string) (w : World) :
  falsy (query_bound Number q) = true →
  get_history Number v q other w = get_history Number v None other w
  ∧ get_history Number v other q w = get_history Number v other None w.
Proof.
  intros Hb. unfold get_history. cbn [query_bound].
  split; apply history_ext; intros t; unfold in_bounds; by rewrite Hb.
Qed.

Lemma falsy_bound_is_absent_witness :
  get_history number_samples "V1" None (Some "0") doubled
  = get_history number_samples "V1" None None doubled
  ∧ get_history number_samples "V1" (Some "yesterday") None doubled
    = get_history number_samples "V1" None None doubled.
Proof.
  split.
  - apply (falsy_bound_is_absent number_samples "V1" (Some "0") None doubled eq_refl).
  - apply (falsy_bound_is_absent number_samples "V1" (Some "yesterday") None doubled eq_refl).
Defined.

(** ** Roles *)

Lemma on_location_request_refused (sd : SocketData) (data : option Doc) (now : Z) (w : World) :
  data_role sd ≠ "user" →
  on_location_request sd data now w = (w, AckError (Error "Only users can request")).
Proof.
  intros Hrole. unfold on_location_request, try_ack, bind, throw.
  apply String.eqb_neq in Hrole. by rewrite Hrole.
Qed.

Lemma on_permission_granted_refused (sd : SocketData) (data : option Doc) (w : World) :
  data_role sd ≠ "device" →
  on_permission_granted sd data w = (w, AckError (Error "Only devices can approve")).
Proof.
  intros Hrole. unfold on_permission_granted, try_ack, bind, throw.
  apply String.eqb_neq in Hrole. by rewrite Hrole.
Qed.

Lemma with_world_same (srv : Server) : with_world srv (world srv) = srv.
Proof. by destruct srv. Qed.

Lemma auth_middleware_role (jwt_verify JSON_parse_atob : string → exn + option Payload)
    (hs : Handshake) (sd : SocketData) :
  auth_middleware jwt_verify JSON_parse_atob hs = inr sd →
  data_role sd = "user" ∨ data_role sd = "device".
Proof.
  intros (p & _ & _ & _ & ->)%auth_middleware_accepts. unfold binding.
  case_bool_decide; [by left | by right].
Qed.

Lemma auth_middleware_truthy (jwt_verify JSON_parse_atob : string → exn + option Payload)
    (hs : Handshake) (sd : SocketData) :
  auth_middleware jwt_verify JSON_parse_atob hs = inr sd →
  (data_role sd = "user" → truthy (data_userId sd) = true)
  ∧ (data_role sd = "device" → truthy (data_vehicleId sd) = true).
Proof.
  intros (p & _ & _ & Hsub & ->)%auth_middleware_accepts. unfold binding.
  case_bool_decide; simpl; split; done.
Qed.

(** X15: every connection the gate lets in is shut out of one side of the
    protocol.  A connection bound as a user gets
    [{ ok: false, error: "Only devices can send" }] for a
    [location:update] and [{ ok: false, error: "Only devices can approve" }]
    for a [permission:granted]; a connection bound as a device gets
    [{ ok: false, error: "Only users can request" }] for a
    [location:request]; and a refused packet leaves the namespace --
    bucket, pushes, rooms and registry -- exactly as it was, whatever its
    payload. *)
Theorem role_separation (jwt_verify JSON_parse_atob : string → exn + option Payload)
    (hs : Handshake) (srv : Server) (sid : string) (sd : SocketData)
    (data : option Doc) (now : Z) :
  auth_middleware jwt_verify JSON_parse_atob hs = inr sd →
  sockets srv !! sid = Some sd →
  let send ev := step jwt_verify JSON_parse_atob srv (Packet sid ev data now) in
  (data_role sd = "user"
   ∧ send "location:update" = (srv, Acked (AckError (Error "Only devices can send")))
   ∧ send "permission:granted" = (srv, Acked (AckError (Error "Only devices can approve"))))
  ∨ (data_role sd = "device"
     ∧ send "location:request" = (srv, Acked (AckError (Error "Only users can request")))).
Proof.
  intros Hgate Hsd. cbn zeta. unfold step. rewrite Hsd. cbn [String.eqb Ascii.eqb].
  destruct (auth_middleware_role _ _ _ _ Hgate) as [Hrole|Hrole]; [left|right];
    (split; [done|]).
  - rewrite on_location_update_refused, on_permission_granted_refused by (by rewrite Hrole).
    cbn [fst snd]. by rewrite with_world_same.
  - rewrite on_location_request_refused by (by rewrite Hrole).
    cbn [fst snd]. by rewrite with_world_same.
Qed.

Lemma role_separation_witness :
  let srv := fst (run nothing_verifies parse_samples idle scenario) in
  step nothing_verifies parse_samples srv
    (Packet "socket-u" "location:update" (Some report_V2) 1700000002000)
  = (srv, Acked (AckError (Error "Only devices can send")))
  ∧ step nothing_verifies parse_samples srv
      (Packet "socket-d" "location:request" (Some request_V1) 1700000002000)
    = (srv, Acked (AckError (Error "Only users can request"))).
Proof.
  cbn zeta. split.
  - destruct (role_separation nothing_verifies parse_samples user_handshake
                (fst (run nothing_verifies parse_samples idle scenario)) "socket-u"
                (mkSocketData "user" (JStr "U1") JUndefined) (Some report_V2) 1700000002000
                eq_refl eq_refl) as [(_ & H & _)|(Habs & _)];
      [exact H | discriminate Habs].
  - destruct (role_separation nothing_verifies parse_samples device_handshake
                (fst (run nothing_verifies parse_samples idle scenario)) "socket-d"
                (mkSocketData "device" JUndefined (JStr "V2")) (Some request_V1) 1700000002000
                eq_refl eq_refl) as [(Habs & _)|(_ & H)];
      [discriminate Habs | exact H].
Defined.

(** ** Access, once given, stays *)

Lemma push_if_absent_keeps (l : list jsval) (x y : jsval) :
  y ∈ l → y ∈ push_if_absent l x.
Proof.
  intros Hy. unfold push_if_absent. destruct (includes l x); [done|].
  apply elem_of_app. by left.
Qed.

Lemma mutate1_keeps_accepted (status : string) (x : jsval) (d d' : Doc) (y : string) :
  mutate1 status x d = Some d' →
  JStr y ∈ default [] (accepted d) →
  JStr y ∈ default [] (accepted (json_roundtrip d')).
Proof.
  unfold mutate1.
  destruct (String.eqb status "pending"); [|destruct (String.eqb status "accepted")].
  - destruct d as [[p|] a vid uid la ln sp t]; simpl; [|done].
    intros [= <-]. simpl. destruct a as [a|]; simpl; [|done]. by rewrite json_cell_str.
  - destruct d as [[p|] [a|] vid uid la ln sp t]; simpl; try done.
    intros [= <-]. simpl. rewrite json_cell_str. apply push_if_absent_keeps.
  - intros [= <-]. destruct (accepted d) as [a|] eqn:E; unfold json_roundtrip; simpl;
      rewrite E; simpl; [by rewrite json_cell_str | done].
Qed.

Lemma keeps_access_refl (w : World) :
  healthy (s3 w) → perm_docs_wf (s3 w) → keeps_access w w.
Proof. intros Hh Hwf. split; [done|]. split; [done|]. intros id y. by split. Qed.

Lemma keeps_access_sent (w : World) (l : list Emit) :
  healthy (s3 w) → perm_docs_wf (s3 w) → keeps_access w (mkWorld (s3 w) l).
Proof. intros Hh Hwf. split; [done|]. split; [done|]. intros id y. by split. Qed.

Lemma keeps_access_trans (w1 w2 w3 : World) :
  keeps_access w1 w2 → keeps_access w2 w3 → keeps_access w1 w3.
Proof.
  intros (_ & _ & H12) (Hh & Hwf & H23). split; [done|]. split; [done|].
  intros id y. destruct (H12 id y) as [A1 B1]. destruct (H23 id y) as [A2 B2]. auto.
Qed.

Lemma updatePermission_keeps_access (vid uid : jsval) (status : string) (w : World) :
  healthy (s3 w) → perm_docs_wf (s3 w) →
  keeps_access w (fst (updatePermission vid uid status w)).
Proof.
  intros Hh Hwf. rewrite updatePermission_run, !read_healthy by done.
  destruct (perm_at_wf _ vid Hwf) as [Hpv _].
  destruct (perm_at_wf _ uid Hwf) as [_ Hpu].
  destruct (mutate1_defined status uid _ Hpv) as [veh Hveh].
  destruct (mutate1_defined status vid _ Hpu) as [usr Husr].
  rewrite Hveh, Husr, !Hh. cbn [fst].
  split; [done|]. split.
  { apply stored2_wf; [done | apply (mutate1_is_perm _ _ _ _ Hpv Hveh)
                             | apply (mutate1_is_perm _ _ _ _ Hpu Husr)]. }
  intros id y. unfold accepted_of. rewrite !perm_at_stored2.
  split; intros Hin.
  - destruct (decide (paths.vehPerm id = paths.userPerm uid)) as [E|_];
      [by apply vehPerm_ne_userPerm in E|].
    destruct (decide (paths.vehPerm id = paths.vehPerm vid)) as [E|_]; [|done].
    rewrite E in Hin. by apply (mutate1_keeps_accepted _ _ _ _ _ Hveh).
  - destruct (decide (paths.userPerm id = paths.userPerm uid)) as [E|_].
    + rewrite E in Hin. by apply (mutate1_keeps_accepted _ _ _ _ _ Husr).
    + destruct (decide (paths.userPerm id = paths.vehPerm vid)) as [E|_]; [|done].
      symmetry in E. by apply vehPerm_ne_userPerm in E.
Qed.

Lemma on_location_update_keeps_access (sd : SocketData) (data : option Doc) (now : Z)
    (w : World) :
  healthy (s3 w) → perm_docs_wf (s3 w) →
  keeps_access w (fst (on_location_update sd data now w)).
Proof.
  intros Hh Hwf. destruct data as [data|].
  - destruct (location_update_effect sd data now w) as (Hsame & Hup & _).
    assert (∀ id, objects (s3 (fst (on_location_update sd (Some data) now w)))
                    !! paths.vehPerm id = objects (s3 w) !! paths.vehPerm id
                  ∧ objects (s3 (fst (on_location_update sd (Some data) now w)))
                      !! paths.userPerm id = objects (s3 w) !! paths.userPerm id) as Hperm.
    { intros id.
      destruct (position_keys_ne_perm (vehicleId data) id now) as (N1 & N2 & N3 & N4).
      split; by apply Hsame. }
    split; [intros op; rewrite Hup; apply Hh|]. split.
    + intros id d. destruct (Hperm id) as [-> ->]. apply Hwf.
    + intros id y. unfold accepted_of, perm_at. by destruct (Hperm id) as [-> ->].
  - destruct (decide (data_role sd = "device")) as [Hrole|Hrole];
      [|rewrite on_location_update_refused by done; by apply keeps_access_refl].
    unfold on_location_update, try_ack, bind, defined, throw.
    apply String.eqb_eq in Hrole. rewrite Hrole. by apply keeps_access_refl.
Qed.

Lemma on_location_request_keeps_access (sd : SocketData) (data : option Doc) (now : Z)
    (w : World) :
  healthy (s3 w) → perm_docs_wf (s3 w) →
  keeps_access w (fst (on_location_request sd data now w)).
Proof.
  intros Hh Hwf.
  destruct (decide (data_role sd = "user")) as [Hrole|Hrole];
    [|rewrite on_location_request_refused by done; by apply keeps_access_refl].
  unfold on_location_request, try_ack, bind, defined, throw, ret.
  apply String.eqb_eq in Hrole. rewrite Hrole. cbn [negb].
  destruct data as [data|]; [|by apply keeps_access_refl].
  destruct (truthy (vehicleId data)); cbn [negb]; [|by apply keeps_access_refl].
  pose proof (updatePermission_keeps_access (vehicleId data) (data_userId sd) "pending"
                w Hh Hwf) as Hk.
  destruct (updatePermission _ _ _ w) as [w' [e|docs]]; cbn [fst] in *; [done|].
  unfold emit. cbn [fst]. eapply keeps_access_trans; [exact Hk|].
  destruct Hk as (Hh' & Hwf' & _). by apply keeps_access_sent.
Qed.

Lemma on_permission_granted_keeps_access (sd : SocketData) (data : option Doc) (w : World) :
  healthy (s3 w) → perm_docs_wf (s3 w) →
  keeps_access w (fst (on_permission_granted sd data w)).
Proof.
  intros Hh Hwf.
  destruct (decide (data_role sd = "device")) as [Hrole|Hrole];
    [|rewrite on_permission_granted_refused by done; by apply keeps_access_refl].
  unfold on_permission_granted, try_ack, bind, defined, throw, ret.
  apply String.eqb_eq in Hrole. rewrite Hrole. cbn [negb].
  destruct data as [data|]; [|by apply keeps_access_refl].
  pose proof (updatePermission_keeps_access (vehicleId data) (userId data) "accepted"
                w Hh Hwf) as Hk.
  destruct (updatePermission _ _ _ w) as [w' [e|docs]]; cbn [fst] in *; [done|].
  unfold emit. cbn [fst]. eapply keeps_access_trans; [exact Hk|].
  destruct Hk as (Hh' & Hwf' & _). by apply keeps_access_sent.
Qed.

Section Access.

Variable jwt_verify : string → exn + option Payload.
Variable JSON_parse_atob : string → exn + option Payload.

Lemma step_keeps_access (srv : Server) (i : input) :
  healthy (s3 (world srv)) → perm_docs_wf (s3 (world srv)) →
  keeps_access (world srv) (world (fst (step jwt_verify JSON_parse_atob srv i))).
Proof.
  intros Hh Hwf. pose proof (keeps_access_refl _ Hh Hwf) as Hrefl.
  destruct i as [sid hs|sid ev data now|sid]; simpl.
  - destruct (auth_middleware jwt_verify JSON_parse_atob hs) as [e|sd]; [done|].
    cbn [fst]. unfold on_connection. by repeat case_match.
  - destruct (sockets srv !! sid) as [sd|]; [|done].
    repeat case_match; cbn [fst with_world world]; try done.
    + by apply on_location_update_keeps_access.
    + by apply on_location_request_keeps_access.
    + by apply on_permission_granted_keeps_access.
  - by destruct (sockets srv !! sid).
Qed.

Lemma run_keeps_access (inputs : list input) (srv : Server) :
  healthy (s3 (world srv)) → perm_docs_wf (s3 (world srv)) →
  keeps_access (world srv) (world (fst (run jwt_verify JSON_parse_atob srv inputs))).
Proof.
  revert srv. induction inputs as [|i inputs IH]; intros srv Hh Hwf.
  - by apply keeps_access_refl.
  - simpl. pose proof (step_keeps_access srv i Hh Hwf) as Hk.
    eapply keeps_access_trans; [exact Hk|].
    destruct Hk as (Hh' & Hwf' & _). by apply IH.
Qed.

(** X16: access, once given, is never taken back.  On a healthy bucket
    with well-formed documents, whatever connections open and close and
    whatever packets they send -- any events, any payloads, from any role
    -- a user that is in a vehicle's accepted set stays in it, and the
    vehicle stays in the user's: the protocol has no way to revoke. *)
Theorem access_is_never_revoked (inputs : list input) (srv : Server) (v u : string) :
  healthy (s3 (world srv)) → perm_docs_wf (s3 (world srv)) →
  let srv' := fst (run jwt_verify JSON_parse_atob srv inputs) in
  (veh_accepted (s3 (world srv)) v u → veh_accepted (s3 (world srv')) v u)
  ∧ (usr_accepted (s3 (world srv)) v u → usr_accepted (s3 (world srv')) v u).
Proof.
  intros Hh Hwf. cbn zeta.
  destruct (run_keeps_access inputs srv Hh Hwf) as (_ & _ & Hk).
  split; [apply (Hk (JStr v) u) | apply (Hk (JStr u) v)].
Qed.

End Access.

Lemma access_is_never_revoked_witness :
  let srv := mkServer shared_V1 ∅ ∅ ∅ ∅ in
  veh_accepted (s3 (world (fst (run nothing_verifies parse_samples srv scenario)))) "V1" "U1"
  ∧ usr_accepted (s3 (world (fst (run nothing_verifies parse_samples srv scenario)))) "V1" "U1".
Proof.
  cbn zeta.
  destruct (access_is_never_revoked nothing_verifies parse_samples scenario
              (mkServer shared_V1 ∅ ∅ ∅ ∅) "V1" "U1" shared_V1_healthy shared_V1_wf)
    as [Hv Hu].
  split; [exact (Hv (proj1 shared_V1_accepted)) | exact (Hu (proj2 shared_V1_accepted))].
Defined.

(** ** The registry *)

Lemma connect_ids_app (a b : list input) :
  connect_ids (a ++ b) = (connect_ids a ++ connect_ids b)%list.
Proof.
  induction a as [|i a IH]; [done|]. destruct i; simpl; by rewrite ?IH.
Qed.

Lemma connect_ids_elem (sid : string) (hs : Handshake) (l : list input) :
  Connect sid hs ∈ l → sid ∈ connect_ids l.
Proof.
  induction l as [|i l IH]; [by intros ?%elem_of_nil|].
  intros [<-|Hin]%elem_of_cons; simpl; [by left|].
  destruct i; try (by apply IH). right. by apply IH.
Qed.

Lemma room_of_user (sd : SocketData) :
  data_role sd = "user" → room_of sd = Some ("user:" ++ to_str (data_userId sd)).
Proof. intros H. unfold room_of. by rewrite H. Qed.

Lemma room_of_device (sd : SocketData) :
  data_role sd = "device" → room_of sd = Some ("vehicle:" ++ to_str (data_vehicleId sd)).
Proof. intros H. unfold room_of. by rewrite H. Qed.

Lemma join_lookup (r r' sid sid' : string) (rs : gmap string (gset string)) :
  sid' ∈ default ∅ (join r sid rs !! r')
  ↔ (r' = r ∧ sid' = sid) ∨ sid' ∈ default ∅ (rs !! r').
Proof.
  unfold join. destruct (decide (r' = r)) as [->|Hne].
  - rewrite lookup_insert_eq. simpl. rewrite elem_of_union, elem_of_singleton. tauto.
  - rewrite lookup_insert_ne by done. tauto.
Qed.

Lemma add_socket_lookup (id id' : jsval) (sid sid' : string) (m : gmap jsval (gset string)) :
  sid' ∈ default ∅ (add_socket id sid m !! id')
  ↔ (id' = id ∧ sid' = sid) ∨ sid' ∈ default ∅ (m !! id').
Proof.
  unfold add_socket. destruct (decide (id' = id)) as [->|Hne].
  - rewrite lookup_insert_eq. simpl. rewrite elem_of_union, elem_of_singleton. tauto.
  - rewrite lookup_insert_ne by done. tauto.
Qed.

Lemma delete_socket_lookup (id id' : jsval) (sid sid' : string) (m : gmap jsval (gset string)) :
  sid' ∈ default ∅ (delete_socket id sid m !! id')
  ↔ sid' ∈ default ∅ (m !! id') ∧ ¬ (id' = id ∧ sid' = sid).
Proof.
  unfold delete_socket. destruct (m !! id) as [sids|] eqn:E.
  - destruct (decide (id' = id)) as [->|Hne].
    + rewrite lookup_insert_eq, E. simpl.
      rewrite elem_of_difference, elem_of_singleton. tauto.
    + rewrite lookup_insert_ne by done. tauto.
  - destruct (decide (id' = id)) as [->|Hne]; [|tauto].
    rewrite E. simpl. rewrite elem_of_empty. tauto.
Qed.

(** Looking a socket up after socket [sid], not open before, was bound to
    [sd]. *)
Lemma lookup_bound (P : SocketData → Prop) (sid sid' : string) (sd : SocketData)
    (socks : gmap string SocketData) :
  socks !! sid = None →
  (∃ sd', <[sid := sd]> socks !! sid' = Some sd' ∧ P sd')
  ↔ (sid' = sid ∧ P sd) ∨ (∃ sd', socks !! sid' = Some sd' ∧ P sd').
Proof.
  intros Hfresh. destruct (decide (sid' = sid)) as [->|Hne].
  - rewrite lookup_insert_eq, Hfresh. split.
    + intros (sd' & [= <-] & HP). by left.
    + intros [[_ HP]|(sd' & ? & _)]; [by exists sd | done].
  - rewrite lookup_insert_ne by done. split; [by right|].
    by intros [[? _]|?].
Qed.

(** Looking a socket up after socket [sid] was closed. *)
Lemma lookup_unbound (P : SocketData → Prop) (sid sid' : string)
    (socks : gmap string SocketData) :
  (∃ sd', delete sid socks !! sid' = Some sd' ∧ P sd')
  ↔ sid' ≠ sid ∧ (∃ sd', socks !! sid' = Some sd' ∧ P sd').
Proof.
  destruct (decide (sid' = sid)) as [->|Hne].
  - rewrite lookup_delete_eq. split; [by intros (? & ? & _) | by intros [? _]].
  - rewrite lookup_delete_ne by done. tauto.
Qed.

Lemma on_connection_mirrors (srv : Server) (sid : string) (sd : SocketData) :
  sockets srv !! sid = None →
  registry_mirrors srv → registry_mirrors (on_connection srv sid sd).
Proof.
  intros Hfresh (Hr & Hu & Hv).
  unfold on_connection, registry_mirrors.
  destruct (String.eqb (data_role sd) "user") eqn:Eu;
    [|destruct (String.eqb (data_role sd) "device") eqn:Ed];
    cbn [rooms sockets userSockets vehicleSockets].
  - apply String.eqb_eq in Eu. pose proof (room_of_user sd Eu) as Hroom.
    split; [|split].
    + intros r sid'. rewrite join_lookup, Hr, lookup_bound by done.
      rewrite Hroom. intuition congruence.
    + intros uid sid'. rewrite add_socket_lookup, Hu, lookup_bound by done.
      intuition congruence.
    + intros vid sid'. rewrite Hv, lookup_bound by done.
      rewrite Eu. intuition congruence.
  - apply String.eqb_eq in Ed. pose proof (room_of_device sd Ed) as Hroom.
    split; [|split].
    + intros r sid'. rewrite join_lookup, Hr, lookup_bound by done.
      rewrite Hroom. intuition congruence.
    + intros uid sid'. rewrite Hu, lookup_bound by done.
      rewrite Ed. intuition congruence.
    + intros vid sid'. rewrite add_socket_lookup, Hv, lookup_bound by done.
      intuition congruence.
  - apply String.eqb_neq in Eu, Ed.
    assert (room_of sd = None) as Hroom.
    { unfold room_of. apply String.eqb_neq in Eu, Ed. by rewrite Eu, Ed. }
    split; [|split].
    + intros r sid'. rewrite Hr, lookup_bound by done.
      rewrite Hroom. intuition congruence.
    + intros uid sid'. rewrite Hu, lookup_bound by done. intuition congruence.
    + intros vid sid'. rewrite Hv, lookup_bound by done. intuition congruence.
Qed.

Lemma on_disconnect_mirrors (srv : Server) (sid : string) (sd : SocketData) :
  sockets srv !! sid = Some sd →
  registry_mirrors srv → registry_mirrors (on_disconnect srv sid sd).
Proof.
  intros Hsd (Hr & Hu & Hv).
  unfold on_disconnect, registry_mirrors.
  cbn [rooms sockets userSockets vehicleSockets].
  split; [|split].
  - intros r sid'. rewrite lookup_unbound, <- Hr.
    rewrite lookup_fmap. destruct (rooms srv !! r) as [sids|]; simpl.
    + rewrite elem_of_difference, elem_of_singleton. tauto.
    + rewrite elem_of_empty. tauto.
  - intros uid sid'. rewrite lookup_unbound, <- Hu.
    destruct (String.eqb (data_role sd) "user") eqn:Eu.
    + rewrite delete_socket_lookup. apply String.eqb_eq in Eu.
      split.
      * intros [Hin Hne]. split; [|done]. intros ->. apply Hne. split; [|done].
        apply Hu in Hin as (sd' & Hsd' & _ & <-). congruence.
      * intros [Hne Hin]. split; [done|]. by intros [_ ->].
    + split.
      * intros Hin. split; [|done]. intros ->.
        apply Hu in Hin as (sd' & Hsd' & Hrole & _).
        assert (sd' = sd) as -> by congruence. rewrite Hrole in Eu. done.
      * by intros [_ ?].
  - intros vid sid'. rewrite lookup_unbound, <- Hv.
    destruct (String.eqb (data_role sd) "device") eqn:Ed.
    + rewrite delete_socket_lookup. apply String.eqb_eq in Ed.
      split.
      * intros [Hin Hne]. split; [|done]. intros ->. apply Hne. split; [|done].
        apply Hv in Hin as (sd' & Hsd' & _ & <-). congruence.
      * intros [Hne Hin]. split; [done|]. by intros [_ ->].
    + split.
      * intros Hin. split; [|done]. intros ->.
        apply Hv in Hin as (sd' & Hsd' & Hrole & _).
        assert (sd' = sd) as -> by congruence. rewrite Hrole in Ed. done.
      * by intros [_ ?].
Qed.

Lemma on_connection_sockets (srv : Server) (sid : string) (sd : SocketData) :
  sockets (on_connection srv sid sd) = <[sid := sd]> (sockets srv).
Proof. unfold on_connection. by repeat case_match. Qed.

Section Registry.

Variable jwt_verify : string → exn + option Payload.
Variable JSON_parse_atob : string → exn + option Payload.

Lemma step_registry (past : list input) (srv : Server) (i : input) :
  NoDup (connect_ids (past ++ [i])) →
  registry_mirrors srv → passed_gate jwt_verify JSON_parse_atob past srv →
  registry_mirrors (fst (step jwt_verify JSON_parse_atob srv i))
  ∧ passed_gate jwt_verify JSON_parse_atob (past ++ [i])
      (fst (step jwt_verify JSON_parse_atob srv i)).
Proof.
  intros Hnd Hm Ha.
  assert (passed_gate jwt_verify JSON_parse_atob (past ++ [i]) srv) as Ha'.
  { intros sid sd Hsd. destruct (Ha sid sd Hsd) as (hs & Hin & Hok).
    exists hs. split; [|done]. apply elem_of_app. by left. }
  destruct i as [sid hs|sid ev data now|sid]; simpl.
  - destruct (auth_middleware jwt_verify JSON_parse_atob hs) as [e|sd] eqn:Hgate; [done|].
    cbn [fst].
    assert (sockets srv !! sid = None) as Hfresh.
    { destruct (sockets srv !! sid) as [sd'|] eqn:E; [|done].
      destruct (Ha sid sd' E) as (hs' & Hin & _).
      apply connect_ids_elem in Hin.
      rewrite connect_ids_app in Hnd. simpl in Hnd.
      apply NoDup_app in Hnd as (_ & Hdis & _).
      destruct (Hdis sid Hin). by left. }
    split; [by apply on_connection_mirrors|].
    intros sid' sd' Hsd'. rewrite on_connection_sockets in Hsd'.
    destruct (decide (sid' = sid)) as [->|Hne].
    + rewrite lookup_insert_eq in Hsd'. injection Hsd' as <-.
      exists hs. split; [|done]. apply elem_of_app. right. by left.
    + rewrite lookup_insert_ne in Hsd' by done. by apply Ha'.
  - destruct (sockets srv !! sid) as [sd|]; [|done].
    repeat case_match; done.
  - destruct (sockets srv !! sid) as [sd|] eqn:Hsd; [|done].
    cbn [fst]. split; [by apply on_disconnect_mirrors|].
    intros sid' sd' Hsd'. apply Ha'.
    unfold on_disconnect in Hsd'. cbn [sockets] in Hsd'.
    by apply lookup_delete_Some in Hsd' as [_ Hsd'].
Qed.

Lemma run_registry (inputs past : list input) (srv : Server) :
  NoDup (connect_ids (past ++ inputs)) →
  registry_mirrors srv → passed_gate jwt_verify JSON_parse_atob past srv →
  registry_mirrors (fst (run jwt_verify JSON_parse_atob srv inputs))
  ∧ passed_gate jwt_verify JSON_parse_atob (past ++ inputs)
      (fst (run jwt_verify JSON_parse_atob srv inputs)).
Proof.
  revert past srv. induction inputs as [|i inputs IH]; intros past srv Hnd Hm Ha.
  - simpl. by rewrite app_nil_r.
  - simpl. replace (past ++ i :: inputs)%list with ((past ++ [i]) ++ inputs)%list in *
      by (by rewrite <- app_assoc).
    destruct (step_registry past srv i) as [Hm' Ha']; [|done|done|by apply IH].
    rewrite connect_ids_app in Hnd. by apply NoDup_app in Hnd as (? & _).
Qed.

Lemma idle_registry :
  registry_mirrors idle ∧ passed_gate jwt_verify JSON_parse_atob [] idle.
Proof.
  split; [|by intros sid sd ?].
  unfold registry_mirrors, idle. cbn [rooms userSockets vehicleSockets sockets].
  split; [|split]; intros x sid; rewrite !lookup_empty; simpl;
    (split; [by intros ?%elem_of_empty | by intros (? & ? & _)]).
Qed.

(** X17: the rooms and the two socket maps mirror the open connections.
    After any run from the idle namespace in which every handshake brings a
    socket id of its own, a socket is in a room exactly when it is open and
    the room is the one of the identity the gate bound it to, and it is in
    [userSockets] or [vehicleSockets] under exactly that identity; every
    open socket passed the gate with a handshake of the run; so an event
    reaches only open sockets whose credential carried the identity of the
    room it is sent to, and a closed socket is sent nothing. *)
Theorem registry_mirrors_connections (inputs : list input) :
  NoDup (connect_ids inputs) →
  let srv := fst (run jwt_verify JSON_parse_atob idle inputs) in
  registry_mirrors srv
  ∧ (∀ sid sd, sockets srv !! sid = Some sd →
       ∃ hs, Connect sid hs ∈ inputs
             ∧ auth_middleware jwt_verify JSON_parse_atob hs = inr sd)
  ∧ (∀ e sid, sid ∈ recipients srv e →
       ∃ hs sd, Connect sid hs ∈ inputs
                ∧ auth_middleware jwt_verify JSON_parse_atob hs = inr sd
                ∧ sockets srv !! sid = Some sd
                ∧ room_of sd = Some (room e)).
Proof.
  intros Hnd. cbn zeta.
  destruct idle_registry as [Hm Ha].
  destruct (run_registry inputs [] idle Hnd Hm Ha) as [Hm' Ha'].
  split; [done|]. split; [exact Ha'|].
  intros e sid Hin. unfold recipients in Hin.
  destruct Hm' as (Hr & _). apply Hr in Hin as (sd & Hsd & Hroom).
  destruct (Ha' sid sd Hsd) as (hs & Hhs & Hok). by exists hs, sd.
Qed.

End Registry.

Lemma scenario_ids_NoDup : NoDup (connect_ids (scenario ++ [Disconnect "socket-u"])).
Proof.
  apply NoDup_cons. split; [by intros ?%list_elem_of_singleton | apply NoDup_singleton].
Defined.

Lemma registry_mirrors_connections_witness :
  let srv := fst (run nothing_verifies parse_samples idle
                    (scenario ++ [Disconnect "socket-u"])) in
  registry_mirrors srv
  ∧ ∀ e sid, sid ∈ recipients srv e →
      ∃ hs sd, Connect sid hs ∈ (scenario ++ [Disconnect "socket-u"])%list
               ∧ auth_middleware nothing_verifies parse_samples hs = inr sd
               ∧ sockets srv !! sid = Some sd
               ∧ room_of sd = Some (room e).
Proof.
  cbn zeta.
  destruct (registry_mirrors_connections nothing_verifies parse_samples
              (scenario ++ [Disconnect "socket-u"]) scenario_ids_NoDup) as (H1 & _ & H3).
  split; [exact H1 | exact H3].
Defined.

(** ** What is pushed, and to whom *)

Lemma updatePermission_sent (vid uid : jsval) (status : string) (w : World) :
  sent (fst (updatePermission vid uid status w)) = sent w.
Proof.
  rewrite updatePermission_run.
  destruct (mutate1 status uid _) as [veh|]; [|done].
  destruct (mutate1 status vid _) as [usr|]; [|done].
  destruct (up (s3 w) (PutObject (paths.vehPerm vid))); [|done].
  by destruct (up (s3 w) (PutObject (paths.userPerm uid))).
Qed.

Lemma nothing_new (w : World) :
  ∃ new, sent w = (sent w ++ new)%list ∧ Forall well_addressed new.
Proof. exists []. by rewrite app_nil_r. Qed.

Lemma on_location_update_sent (sd : SocketData) (data : option Doc) (now : Z) (w : World) :
  ∃ new, sent (fst (on_location_update sd data now w)) = (sent w ++ new)%list
         ∧ Forall well_addressed new.
Proof.
  destruct data as [data|].
  - destruct (location_update_effect sd data now w) as (_ & _ & (viewers & Hp) & Hsent).
    eexists. split; [exact Hsent|]. rewrite Hp.
    apply Forall_fmap, Forall_forall. intros uid _. left. split; [done|]. by exists uid.
  - destruct (decide (data_role sd = "device")) as [Hrole|Hrole];
      [|rewrite on_location_update_refused by done; apply nothing_new].
    unfold on_location_update, try_ack, bind, defined, throw.
    apply String.eqb_eq in Hrole. rewrite Hrole. apply nothing_new.
Qed.

Lemma on_location_request_sent (sd : SocketData) (data : option Doc) (now : Z) (w : World) :
  (data_role sd = "user" → truthy (data_userId sd) = true) →
  ∃ new, sent (fst (on_location_request sd data now w)) = (sent w ++ new)%list
         ∧ Forall well_addressed new.
Proof.
  intros Hbound.
  destruct (decide (data_role sd = "user")) as [Hrole|Hrole];
    [|rewrite on_location_request_refused by done; apply nothing_new].
  unfold on_location_request, try_ack, bind, defined, throw, ret.
  specialize (Hbound Hrole).
  apply String.eqb_eq in Hrole. rewrite Hrole. cbn [negb].
  destruct data as [data|]; [|apply nothing_new].
  destruct (truthy (vehicleId data)) eqn:Hv; cbn [negb]; [|apply nothing_new].
  pose proof (updatePermission_sent (vehicleId data) (data_userId sd) "pending" w) as Hs.
  destruct (updatePermission _ _ _ w) as [w' [e|docs]]; cbn [fst] in *.
  - rewrite Hs. apply nothing_new.
  - unfold emit. cbn [fst sent]. rewrite Hs. eexists. split; [done|].
    constructor; [|constructor]. right. left. by cbn.
Qed.

Lemma on_permission_granted_sent (sd : SocketData) (data : option Doc) (w : World) :
  ∃ new, sent (fst (on_permission_granted sd data w)) = (sent w ++ new)%list
         ∧ Forall well_addressed new.
Proof.
  destruct (decide (data_role sd = "device")) as [Hrole|Hrole];
    [|rewrite on_permission_granted_refused by done; apply nothing_new].
  unfold on_permission_granted, try_ack, bind, defined, throw, ret.
  apply String.eqb_eq in Hrole. rewrite Hrole. cbn [negb].
  destruct data as [data|]; [|apply nothing_new].
  pose proof (updatePermission_sent (vehicleId data) (userId data) "accepted" w) as Hs.
  destruct (updatePermission _ _ _ w) as [w' [e|docs]]; cbn [fst] in *.
  - rewrite Hs. apply nothing_new.
  - unfold emit. cbn [fst sent]. rewrite Hs. eexists. split; [done|].
    constructor; [|constructor]. right. right. by cbn.
Qed.

Section Events.

Variable jwt_verify : string → exn + option Payload.
Variable JSON_parse_atob : string → exn + option Payload.

Lemma step_bound_by_gate (srv : Server) (i : input) :
  bound_by_gate jwt_verify JSON_parse_atob srv →
  bound_by_gate jwt_verify JSON_parse_atob (fst (step jwt_verify JSON_parse_atob srv i)).
Proof.
  intros Hb. destruct i as [sid hs|sid ev data now|sid]; simpl.
  - destruct (auth_middleware jwt_verify JSON_parse_atob hs) as [e|sd] eqn:Hgate; [done|].
    cbn [fst]. intros sid' sd' Hsd'. rewrite on_connection_sockets in Hsd'.
    destruct (decide (sid' = sid)) as [->|Hne].
    + rewrite lookup_insert_eq in Hsd'. injection Hsd' as <-. by exists hs.
    + rewrite lookup_insert_ne in Hsd' by done. by apply (Hb sid').
  - destruct (sockets srv !! sid) as [sd|]; [|done]. by repeat case_match.
  - destruct (sockets srv !! sid) as [sd|] eqn:Hsd; [|done].
    cbn [fst]. intros sid' sd' Hsd'. unfold on_disconnect in Hsd'. cbn [sockets] in Hsd'.
    apply lookup_delete_Some in Hsd' as [_ Hsd']. by apply (Hb sid').
Qed.

Lemma step_sent (srv : Server) (i : input) :
  bound_by_gate jwt_verify JSON_parse_atob srv →
  ∃ new, sent (world (fst (step jwt_verify JSON_parse_atob srv i)))
         = (sent (world srv) ++ new)%list
         ∧ Forall well_addressed new.
Proof.
  intros Hb. pose proof (nothing_new (world srv)) as Hsame.
  destruct i as [sid hs|sid ev data now|sid]; simpl.
  - destruct (auth_middleware jwt_verify JSON_parse_atob hs) as [e|sd]; [done|].
    cbn [fst]. unfold on_connection. by repeat case_match.
  - destruct (sockets srv !! sid) as [sd|] eqn:Hsd; [|done].
    destruct (Hb sid sd Hsd) as (hs & Hgate).
    destruct (auth_middleware_truthy _ _ _ _ Hgate) as [Hu _].
    repeat case_match; cbn [fst with_world world]; try done.
    + apply on_location_update_sent.
    + by apply on_location_request_sent.
    + apply on_permission_granted_sent.
  - by destruct (sockets srv !! sid).
Qed.

Lemma run_sent (inputs : list input) (srv : Server) :
  bound_by_gate jwt_verify JSON_parse_atob srv →
  ∃ new, sent (world (fst (run jwt_verify JSON_parse_atob srv inputs)))
         = (sent (world srv) ++ new)%list
         ∧ Forall well_addressed new.
Proof.
  revert srv. induction inputs as [|i inputs IH]; intros srv Hb.
  - apply nothing_new.
  - simpl. destruct (step_sent srv i Hb) as (new1 & E1 & H1).
    destruct (IH _ (step_bound_by_gate srv i Hb)) as (new2 & E2 & H2).
    exists (new1 ++ new2)%list. split; [|by apply Forall_app].
    by rewrite E2, E1, <- app_assoc.
Qed.


End Events.

(** ** The demo client against the server *)

Lemma split_dot_app (a rest : string) :
  dotless a = true → split_dot (a ++ String "." rest) = a :: split_dot rest.
Proof.
  unfold dotless. induction a as [|c a IH]; intros Hd.
  - reflexivity.
  - simpl in Hd. apply andb_true_iff in Hd as [Hc Hd].
    change (String c a ++ String "." rest) with (String c (a ++ String "." rest)).
    cbn [split_dot]. apply negb_true_iff in Hc. rewrite Hc, IH by done. done.
Qed.

Lemma split_dot_second (a b rest : string) :
  dotless a = true → dotless b = true →
  ∃ parts, split_dot (a ++ "." ++ b ++ "." ++ rest) = a :: b :: parts.
Proof.
  intros Ha Hb. change ("." ++ b ++ "." ++ rest) with (String "." (b ++ String "." rest)).
  rewrite split_dot_app by done. rewrite split_dot_app by done. by eexists.
Qed.

(** The unsigned decode reads the second part of a token and nothing
    else: neither the header nor the signature. *)
Lemma decodeFakeJwt_second_part (JSON_parse_atob : string → exn + option Payload)
    (a b rest : string) :
  dotless a = true → dotless b = true →
  decodeFakeJwt JSON_parse_atob (JStr (a ++ "." ++ b ++ "." ++ rest))
  = match JSON_parse_atob b with inr payload => payload | inl _ => None end.
Proof.
  intros Ha Hb. unfold decodeFakeJwt.
  destruct (split_dot_second a b rest Ha Hb) as (parts & ->). done.
Qed.

Lemma truthy_nonempty (s : string) : s ≠ "" → truthy (JStr s) = true.
Proof. intros H. simpl. apply negb_true_iff. by apply String.eqb_neq. Qed.

(** X19: the token the demo client makes up gets in.  [login(id, role)]
    signs nothing; when the base64 text of its payload has no dot and
    decodes back to [{ sub: id, role }], and the signed verification yields
    nothing for the token, the handshake [useSocket] sends is let through
    by the gate for every non-empty [id] and [role], and the connection is
    bound to the identity the client typed: user [id] for the role [user],
    vehicle [id] for any other role. *)
Theorem login_passes_gate
    (jwt_verify JSON_parse_atob : string → exn + option Payload)
    (btoa_JSON_stringify : Payload → string) (id role : string) :
  let p := mkPayload (JStr role) (JStr id) in
  dotless (btoa_JSON_stringify p) = true →
  JSON_parse_atob (btoa_JSON_stringify p) = inr (Some p) →
  verifyJwt jwt_verify (login btoa_JSON_stringify id role) = None →
  id ≠ "" → role ≠ "" →
  auth_middleware jwt_verify JSON_parse_atob
    (useSocket_handshake (login btoa_JSON_stringify id role))
  = inr (if bool_decide (role = "user")
         then mkSocketData "user" (JStr id) JUndefined
         else mkSocketData "device" JUndefined (JStr id)).
Proof.
  cbn zeta. intros Hdot Hparse Hver Hid Hrole.
  apply auth_middleware_accepts. exists (mkPayload (JStr role) (JStr id)).
  split; [|split; [by apply truthy_nonempty|split; [by apply truthy_nonempty|]]].
  - unfold useSocket_handshake, handshake_token, credential_payload. cbn [auth_token].
    assert (truthy (JStr (login btoa_JSON_stringify id role)) = true) as ->.
    { apply truthy_nonempty. unfold login, login_header. discriminate. }
    rewrite Hver.
    change (login btoa_JSON_stringify id role)
      with (login_header ++ "." ++ btoa_JSON_stringify (mkPayload (JStr role) (JStr id))
            ++ "." ++ "fake-signature").
    rewrite decodeFakeJwt_second_part by done. by rewrite Hparse.
  - unfold binding. simpl.
    repeat case_bool_decide; congruence.
Qed.

Lemma login_passes_gate_witness :
  useSocket_handshake (login encode_samples "U1" "user") = user_handshake
  ∧ auth_middleware nothing_verifies parse_samples
      (useSocket_handshake (login encode_samples "U1" "user"))
    = inr (mkSocketData "user" (JStr "U1") JUndefined)
  ∧ auth_middleware nothing_verifies parse_samples
      (useSocket_handshake (login encode_samples "V2" "device"))
    = inr (mkSocketData "device" JUndefined (JStr "V2")).
Proof.
  split; [reflexivity|]. split.
  - apply (login_passes_gate nothing_verifies parse_samples encode_samples "U1" "user"
             eq_refl eq_refl eq_refl ltac:(discriminate) ltac:(discriminate)).
  - apply (login_passes_gate nothing_verifies parse_samples encode_samples "V2" "device"
             eq_refl eq_refl eq_refl ltac:(discriminate) ltac:(discriminate)).
Defined.

(** *** The device's dashboard *)

Lemma well_addressed_unheard (e : Emit) (requests : list Doc) :
  well_addressed e → device_receives requests e = requests.
Proof.
  unfold device_receives. by intros [[-> _]|[[-> _]|[-> _]]].
Qed.

(** X20: the device's dashboard hears nothing.  The one event it listens
    for, [permission:request], is one the server never pushes (a request
    is pushed as [user:locationPermission]): whatever happens on the
    namespace, and whichever of the events the server ever pushed are
    delivered to it, the dashboard's list of requests is what it was. *)
Theorem device_dashboard_hears_nothing
    (jwt_verify JSON_parse_atob : string → exn + option Payload)
    (inputs : list input) (heard : list Emit) (requests : list Doc) :
  heard ⊆ sent (world (fst (run jwt_verify JSON_parse_atob idle inputs))) →
  foldl device_receives requests heard = requests.
Proof.
  intros Hsub.
  destruct (run_sent jwt_verify JSON_parse_atob inputs idle) as (new & E & Hnew);
    [by intros sid sd ?|].
  rewrite E in Hsub. cbn [idle world empty_world sent app] in Hsub.
  induction heard as [|e heard IH]; [done|].
  cbn [foldl]. rewrite well_addressed_unheard.
  - apply IH. intros x Hx. apply Hsub. by right.
  - apply (proj1 (Forall_forall _ _) Hnew). apply Hsub. by left.
Qed.

Lemma device_dashboard_hears_nothing_witness :
  foldl device_receives []
        (sent (world (fst (run nothing_verifies parse_samples idle scenario))))
  = [].
Proof.
  apply (device_dashboard_hears_nothing nothing_verifies parse_samples scenario).
  reflexivity.
Defined.

Lemma endpoint_arrays (w : World) (key : string) :
  up (s3 w) (GetObject key) = true →
  default [] (pending (read w key empty_obj)) = pending_of (s3 w) key
  ∧ default [] (accepted (read w key empty_obj)) = accepted_of (s3 w) key.
Proof.
  intros Hup. unfold read, pending_of, accepted_of, perm_at. rewrite Hup.
  by destruct (objects (s3 w) !! key).
Qed.

(** X21: a request reaches the device's dashboard when it next fetches.
    After a [location:request] of user [u] for vehicle [v], acknowledged on
    a healthy bucket with well-formed documents, the answer of
    [GET /api/vehicle/v/permissions] makes the dashboard of [v] list a
    request that names [u]. *)
Theorem request_listed_on_fetch (sd : SocketData) (data : Doc) (v u : string) (now : Z)
    (clock : nat → Z) (w : World) :
  healthy (s3 w) → perm_docs_wf (s3 w) →
  data_role sd = "user" → data_userId sd = JStr u →
  vehicleId data = JStr v → v ≠ "" →
  let w' := fst (on_location_request sd (Some data) now w) in
  ∃ d i,
    get_vehicle_permissions v w' = (w', inr d)
    ∧ fetched_requests v clock d !! i
      = Some (mkDoc None None (JStr v) (JStr u) None None None (Some (clock i))).
Proof.
  intros Hh Hwf Hrole Hu Hv Hne. cbn zeta.
  rewrite (on_location_request_healthy sd data v u now w) by done. cbn [fst run_call].
  destruct (request_effect v u w Hh Hwf) as (_ & Hh' & _ & Heff).
  destruct (Heff v u) as (Hp & _).
  set (s' := s3 (fst (updatePermission (JStr v) (JStr u) "pending" w))) in *.
  unfold get_vehicle_permissions. rewrite getJSON_read.
  assert (JStr u ∈ pending_of s' (paths.vehPerm (JStr v))) as Hin by (apply Hp; by left).
  apply list_elem_of_lookup in Hin as [i Hi].
  eexists _, i. split; [done|].
  unfold fetched_requests.
  match goal with |- context [read ?w0 _ _] =>
    destruct (endpoint_arrays w0 (paths.vehPerm (JStr v)) (Hh' _)) as [Ep _] end.
  rewrite Ep. cbn [s3]. rewrite list_lookup_imap, Hi. done.
Qed.

Lemma request_listed_on_fetch_witness :
  let w' := fst (on_location_request user_U1 (Some request_V1) 1700000000000 empty_world) in
  ∃ d i,
    get_vehicle_permissions "V1" w' = (w', inr d)
    ∧ fetched_requests "V1" (λ _, 1700000005000) d !! i
      = Some (mkDoc None None (JStr "V1") (JStr "U1") None None None (Some 1700000005000)).
Proof.
  apply (request_listed_on_fetch user_U1 request_V1 "V1" "U1" 1700000000000
           (λ _, 1700000005000) empty_world empty_world_healthy empty_world_wf
           eq_refl eq_refl eq_refl ltac:(discriminate)).
Defined.

(** *** The user's dashboard *)

Lemma find_none_ids (prev : list VehicleData) (vid : jsval) :
  find (λ v, bool_decide (vehicleId (fields v) = vid)) prev = None → vid ∉ row_ids prev.
Proof.
  unfold row_ids. induction prev as [|v prev IH]; simpl; [intros _; apply not_elem_of_nil|].
  case_bool_decide as E; [done|]. intros H. apply not_elem_of_cons. split; [done | by apply IH].
Qed.

Lemma on_location_live_ids (prev : list VehicleData) (data : Doc) :
  row_ids (on_location_live prev data)
  = match find (λ v, bool_decide (vehicleId (fields v) = vehicleId data)) prev with
    | Some _ => row_ids prev
    | None => (row_ids prev ++ [vehicleId data])%list
    end.
Proof.
  unfold on_location_live, row_ids.
  destruct (find _ prev) as [found|]; [|by rewrite fmap_app].
  rewrite <- list_fmap_compose. apply list_fmap_ext. intros i v _. simpl.
  by case_bool_decide.
Qed.

Lemma on_granted_ids (prev : list VehicleData) (vid : jsval) :
  row_ids (on_granted prev vid) = row_ids prev.
Proof.
  unfold on_granted, row_ids. rewrite <- list_fmap_compose.
  apply list_fmap_ext. intros i v _. simpl. by case_bool_decide.
Qed.

(** X22: the live updates of the user's dashboard never list a vehicle
    twice.  When no two rows share a [vehicleId], none do after any event
    the socket is sent -- a [location:live] replaces the vehicle's row or
    adds one, a [permission:granted] only changes a status -- nor after an
    acknowledged request for access. *)
Theorem dashboard_rows_stay_unique (prev : list VehicleData) :
  NoDup (row_ids prev) →
  (∀ e, NoDup (row_ids (user_receives prev e)))
  ∧ (∀ vid, NoDup (row_ids (on_request_ok prev vid))).
Proof.
  intros Hnd. split.
  - intros e. unfold user_receives. repeat case_match; [|by rewrite on_granted_ids|done].
    rewrite on_location_live_ids.
    destruct (find _ prev) as [found|] eqn:Hf; [done|].
    apply NoDup_app. split; [done|]. split; [|apply NoDup_singleton].
    intros x Hx ->%list_elem_of_singleton. by apply find_none_ids in Hf.
  - intros vid. unfold on_request_ok.
    destruct (existsb _ prev) eqn:Hex; [done|].
    unfold row_ids. rewrite fmap_app. apply NoDup_app. split; [done|].
    split; [|apply NoDup_singleton].
    intros x Hx ->%list_elem_of_singleton. simpl in Hx.
    apply list_elem_of_fmap in Hx as (v & Hv & Hin).
    assert (existsb (λ v, bool_decide (vehicleId (fields v) = JStr vid)) prev = true);
      [|congruence].
    apply existsb_exists. exists v. split; [by apply list_elem_of_In|].
    by apply bool_decide_eq_true.
Qed.

Lemma dashboard_rows_stay_unique_witness :
  NoDup (row_ids (user_receives [bare_row (JStr "V1") "pending"]
                    (live_event (position_report report_V1 1700000000000) (JStr "U1"))))
  ∧ NoDup (row_ids (on_request_ok [bare_row (JStr "V1") "pending"] "V1")).
Proof.
  destruct (dashboard_rows_stay_unique [bare_row (JStr "V1") "pending"]
              (NoDup_singleton (JStr "V1"))) as [He Hr].
  split; [apply He | apply Hr].
Defined.

Lemma on_location_live_row (prev : list VehicleData) (data : Doc) :
  mkVehicleData data "accepted" ∈ on_location_live prev data.
Proof.
  unfold on_location_live.
  destruct (find _ prev) as [found|] eqn:Hf.
  - apply find_some in Hf as [Hfound Heq]. apply bool_decide_eq_true in Heq.
    apply list_elem_of_fmap. exists found. split; [|by apply list_elem_of_In].
    by rewrite bool_decide_eq_true_2.
  - apply elem_of_app. right. by apply list_elem_of_singleton.
Qed.

Lemma activeVehicles_row (rows : list VehicleData) (data : Doc) :
  mkVehicleData data "accepted" ∈ activeVehicles rows
  ↔ mkVehicleData data "accepted" ∈ rows
    ∧ truthy_number (lat data) = true ∧ truthy_number (lng data) = true.
Proof.
  unfold activeVehicles. rewrite list_elem_of_filter. simpl.
  rewrite andb_true_iff. tauto.
Qed.

(** X23: what a position push does to the user's dashboard.  After a
    [location:live] the vehicle it names is listed as accepted with the
    pushed position, every row of that vehicle is that row, and the rows of
    other vehicles are untouched; but the vehicle is put on the map only
    when both its latitude and its longitude are non-zero: a vehicle on the
    equator or on the prime meridian is listed and never drawn. *)
Theorem live_position_is_shown (prev : list VehicleData) (data : Doc) :
  let rows := on_location_live prev data in
  let row := mkVehicleData data "accepted" in
  row ∈ rows
  ∧ (∀ v, v ∈ rows → vehicleId (fields v) = vehicleId data → v = row)
  ∧ (∀ v, vehicleId (fields v) ≠ vehicleId data → v ∈ rows ↔ v ∈ prev)
  ∧ (row ∈ activeVehicles rows
     ↔ truthy_number (lat data) = true ∧ truthy_number (lng data) = true).
Proof.
  cbn zeta. pose proof (on_location_live_row prev data) as Hin.
  split; [done|]. split; [|split].
  - intros v Hv Hid. unfold on_location_live in Hv.
    destruct (find _ prev) as [found|] eqn:Hf.
    + apply list_elem_of_fmap in Hv as (v0 & -> & _).
      case_bool_decide as E; [done|]. by destruct E.
    + apply elem_of_app in Hv as [Hv|Hv]; [|by apply list_elem_of_singleton in Hv].
      apply find_none_ids in Hf. destruct Hf. rewrite <- Hid.
      unfold row_ids. apply list_elem_of_fmap. by exists v.
  - intros v Hid. unfold on_location_live.
    destruct (find _ prev) as [found|] eqn:Hf.
    + rewrite list_elem_of_fmap. split.
      * intros (v0 & -> & Hv0). case_bool_decide as E; [done|]. done.
      * intros Hv. exists v. split; [|done]. by rewrite bool_decide_eq_false_2.
    + rewrite elem_of_app, list_elem_of_singleton. split; [|by left].
      intros [?| ->]; [done|]. by destruct Hid.
  - rewrite activeVehicles_row. tauto.
Qed.

(** X24: asking again for a vehicle one already follows lists it twice.
    When user [u] requests a vehicle [v] that is already in [u]'s accepted
    set, on a healthy bucket with well-formed documents, the answer of
    [GET /api/user/u/permissions] afterwards holds [v] as accepted and as
    pending, and the dashboard built from it has two rows for [v]. *)
Theorem rerequest_duplicates_row (v u : string) (w : World) :
  healthy (s3 w) → perm_docs_wf (s3 w) → usr_accepted (s3 w) v u →
  let w' := fst (run_call (Request v u) w) in
  ∃ d, get_user_permissions u w' = (w', inr d)
       ∧ bare_row (JStr v) "accepted" ∈ fetched_vehicles d
       ∧ bare_row (JStr v) "pending" ∈ fetched_vehicles d
       ∧ ¬ NoDup (row_ids (fetched_vehicles d)).
Proof.
  intros Hh Hwf Hacc. cbn zeta. cbn [run_call].
  destruct (request_effect v u w Hh Hwf) as (_ & Hh' & _ & Heff).
  destruct (Heff v u) as (_ & Hp & _ & Ha).
  set (w' := fst (updatePermission (JStr v) (JStr u) "pending" w)) in *.
  unfold get_user_permissions. rewrite getJSON_read. eexists. split; [done|].
  destruct (endpoint_arrays w' (paths.userPerm (JStr u)) (Hh' _)) as [Ep Ea].
  assert (JStr v ∈ accepted_of (s3 w') (paths.userPerm (JStr u))) as Hina by (by apply Ha).
  assert (JStr v ∈ pending_of (s3 w') (paths.userPerm (JStr u))) as Hinp
    by (apply Hp; by left).
  unfold fetched_vehicles. rewrite Ea, Ep. split; [|split].
  - apply elem_of_app. left. apply list_elem_of_fmap. by exists (JStr v).
  - apply elem_of_app. right. apply list_elem_of_fmap. by exists (JStr v).
  - unfold row_ids. rewrite fmap_app, <- !list_fmap_compose.
    intros Hnd. apply NoDup_app in Hnd as (_ & Hdis & _).
    apply (Hdis (JStr v)); apply list_elem_of_fmap; by exists (JStr v).
Qed.

Lemma rerequest_duplicates_row_witness :
  let w' := fst (run_call (Request "V1" "U1") shared_V1) in
  ∃ d, get_user_permissions "U1" w' = (w', inr d)
       ∧ bare_row (JStr "V1") "accepted" ∈ fetched_vehicles d
       ∧ bare_row (JStr "V1") "pending" ∈ fetched_vehicles d
       ∧ ¬ NoDup (row_ids (fetched_vehicles d)).
Proof.
  apply (rerequest_duplicates_row "V1" "U1" shared_V1 shared_V1_healthy shared_V1_wf
           (proj2 shared_V1_accepted)).
Defined.

(** X25: from the device to the map.  When user [u] is in the accepted
    set of vehicle [v], a [location:update] of [v], on a healthy bucket,
    pushes the report to the room [user:u]; the dashboard that is sent it
    lists [v] as accepted with the reported position, whatever it listed
    before; and it puts [v] on the map when the latitude and the longitude
    of the report are non-zero. *)
Theorem accepted_user_sees_position (sd : SocketData) (data : Doc) (v u : string)
    (now : Z) (w : World) (prev : list VehicleData) :
  healthy (s3 w) → data_role sd = "device" → vehicleId data = JStr v →
  veh_accepted (s3 w) v u →
  let r := on_location_update sd (Some data) now w in
  let e := live_event (position_report data now) (JStr u) in
  let row := mkVehicleData (position_report data now) "accepted" in
  e ∈ pushed w (fst r) ∧ room e = "user:" ++ u
  ∧ row ∈ user_receives prev e
  ∧ (truthy_number (lat data) = true → truthy_number (lng data) = true →
     row ∈ activeVehicles (user_receives prev e)).
Proof.
  intros Hh Hrole Hv Hacc. cbn zeta.
  rewrite on_location_update_run by (done || apply Hh). cbn zeta. cbn [fst].
  rewrite pushed_app, accepted_viewers_read by apply Hh.
  rewrite accepted_of_position_writes, Hv.
  assert (user_receives prev (live_event (position_report data now) (JStr u))
          = on_location_live prev (position_report data now)) as -> by reflexivity.
  pose proof (on_location_live_row prev (position_report data now)) as Hrow.
  split; [apply list_elem_of_fmap; by exists (JStr u)|].
  split; [done|]. split; [done|].
  intros Hlat Hlng. by apply activeVehicles_row.
Qed.

Lemma accepted_user_sees_position_witness :
  let r := on_location_update device_V1 (Some report_V1) 1700000000000 shared_V1 in
  let e := live_event (position_report report_V1 1700000000000) (JStr "U1") in
  let row := mkVehicleData (position_report report_V1 1700000000000) "accepted" in
  e ∈ pushed shared_V1 (fst r)
  ∧ row ∈ activeVehicles (user_receives (fetched_vehicles (accepted_doc [JStr "V1"])) e).
Proof.
  cbn zeta.
  destruct (accepted_user_sees_position device_V1 report_V1 "V1" "U1" 1700000000000
              shared_V1 (fetched_vehicles (accepted_doc [JStr "V1"]))
              shared_V1_healthy eq_refl eq_refl (proj1 shared_V1_accepted))
    as (Hpushed & _ & _ & Hmap).
  split; [exact Hpushed | exact (Hmap eq_refl eq_refl)].
Defined.

(** X26: from the grant to the user's dashboard.  When the device's
    dashboard grants user [u] access to its vehicle [v], on a healthy
    bucket with well-formed documents, the server records the pair as
    accepted and pushes one [permission:granted] to the room [user:u]; the
    dashboard that is sent it then shows every row of [v] as accepted, and
    neither adds nor drops a row: a vehicle the dashboard did not list --
    the grant was not asked for -- is not listed until a position
    arrives. *)
Theorem grant_reaches_user_dashboard (sd : SocketData) (v u : string) (w : World)
    (prev : list VehicleData) :
  healthy (s3 w) → perm_docs_wf (s3 w) → data_role sd = "device" →
  let r := on_permission_granted sd (Some (grant_payload v u)) w in
  ∃ e, pushed w (fst r) = [e] ∧ room e = "user:" ++ u
       ∧ usr_accepted (s3 (fst r)) v u
       ∧ row_ids (user_receives prev e) = row_ids prev
       ∧ ∀ row, row ∈ user_receives prev e → vehicleId (fields row) = JStr v →
                status row = "accepted".
Proof.
  intros Hh Hwf Hrole. cbn zeta.
  rewrite (on_permission_granted_healthy sd (grant_payload v u) v u w) by done.
  cbn [fst]. rewrite pushed_app. eexists. split; [done|]. split; [done|].
  destruct (grant_accepts v u w Hh Hwf) as (_ & _ & Hacc & _).
  split; [exact Hacc|].
  assert (∀ prev', user_receives prev'
            (mkEmit ("user:" ++ u) "permission:granted"
               (mkDoc None None (JStr v) (JStr u) None None None None))
          = on_granted prev' (JStr v)) as -> by reflexivity.
  split; [apply on_granted_ids|].
  intros row Hrow Hid. unfold on_granted in Hrow.
  apply list_elem_of_fmap in Hrow as (row0 & -> & _).
  case_bool_decide as E; [done|]. by destruct E.
Qed.

Lemma grant_reaches_user_dashboard_witness :
  let r := on_permission_granted device_V1 (Some (grant_payload "V1" "U1"))
             (fst (on_location_request user_U1 (Some request_V1) 1700000000000
                     empty_world)) in
  ∃ e, room e = "user:U1"
       ∧ usr_accepted (s3 (fst r)) "V1" "U1"
       ∧ ∀ row, row ∈ user_receives [bare_row (JStr "V1") "pending"] e →
                vehicleId (fields row) = JStr "V1" → status row = "accepted".
Proof.
  cbn zeta.
  destruct (grant_reaches_user_dashboard device_V1 "V1" "U1"
              (fst (on_location_request user_U1 (Some request_V1) 1700000000000
                      empty_world))
              [bare_row (JStr "V1") "pending"])
    as (e & _ & Hroom & Hacc & _ & Hrows).
  - intros op. reflexivity.
  - intros id d Hd. eapply (stored2_wf empty_world (JStr "V1") (JStr "U1")
                              (set_pending empty_perm [JStr "U1"])
                              (set_pending empty_perm [JStr "V1"]) empty_world_wf);
      [split; by eexists | split; by eexists | exact Hd].
  - reflexivity.
  - exists e. split; [exact Hroom|]. split; [exact Hacc | exact Hrows].
Defined.
